(** * Gluify: a shallow embedding of the deferred pipeline engine

    The development follows [Gluify.ts]: a pipeline is an immutable record
    made of a seed and an ordered list of step descriptors; builder methods
    append one descriptor; [run] and [runAsync] walk the list with one
    error-propagation policy.

    Conventions of the embedding.
    - JavaScript values are the inductive [value]; arrays and plain objects
      are references into a [heap], so that in-place natives ([sort],
      [reverse]) and copies ([[...arr]]) can be told apart.
    - A caller-supplied function is a heap transformer that returns or throws
      ([M]).  Anything can be thrown: the executors store what they catch
      ([error = e as Error] is an unchecked cast) and test it with
      [if (error)], so the pending failure is a [value] read through
      [ToBoolean]; an [Error] object is the value [VError].
    - A promise is represented by its settlement ([VResolved], [VRejected]);
      [await] reads it.  The interleaving with other tasks is not modelled.
    - Numbers are integers. *)

From Stdlib Require Import ZArith String List Lia Sorted.
From stdpp Require Import base list strings.
Import ListNotations.
Local Open Scope Z_scope.
Local Open Scope nat_scope.

(** ** Values, failures, heap *)

Record Error := mkError { name : string; message : string }.

Inductive value :=
| VUndefined
| VNull
| VBool (b : bool)
| VNum (n : Z)
| VStr (s : string)
| VArr (r : nat)
| VObj (r : nat)
| VError (e : Error)
| VResolved (v : value)
| VRejected (reason : value).

Inductive cell :=
| Arr (elems : list value)
| Obj (props : list (string * value)).

Abbreviation heap := (list cell).

Inductive outcome (A : Type) :=
| Return (a : A)
| Throw (e : value).
Arguments Return {A} a.
Arguments Throw {A} e.

(** State-and-exception monad of JavaScript code running against the heap. *)
Definition M (A : Type) := heap -> outcome A * heap.

Definition ret {A} (a : A) : M A := fun h => (Return a, h).
Definition throw {A} (e : value) : M A := fun h => (Throw e, h).
Definition bind {A B} (m : M A) (k : A -> M B) : M B :=
  fun h => match m h with
           | (Return a, h') => k a h'
           | (Throw e, h') => (Throw e, h')
           end.

Notation "'let*' x ':=' m 'in' k" := (bind m (fun x => k))
  (at level 10, x name, m at level 100, k at level 200).

(** [ToBoolean] of the language, used by [if (predicate(value))]. *)
Definition ToBoolean (v : value) : bool :=
  match v with
  | VUndefined | VNull => false
  | VBool b => b
  | VNum n => negb (Z.eqb n 0)
  | VStr s => negb (String.eqb s EmptyString)
  | VArr _ | VObj _ | VError _ | VResolved _ | VRejected _ => true
  end.

Definition instanceofPromise (v : value) : bool :=
  match v with
  | VResolved _ | VRejected _ => true
  | _ => false
  end.

(** [await v]: a promise yields its settlement (a promise resolved with a
    promise adopts it), any other value is returned as it is. *)
Fixpoint await (v : value) : outcome value :=
  match v with
  | VResolved x => await x
  | VRejected e => Throw e
  | _ => Return v
  end.

(** The promise an [async] function hands back for the outcome of its body. *)
Definition promiseOf (o : outcome value) : value :=
  match o with
  | Return v => VResolved v
  | Throw e => VRejected e
  end.

(** ** The class [Gluify] *)

(** [type Operation = (value: unknown) => unknown], where an operation that
    carries [__isErrorHandler === true] also carries [__handler].  The body
    of such a marker operation ([value => value]) is never called by the
    executors, so the descriptor keeps the handler only. *)
Inductive Operation :=
| Transform (op : value -> M value)
| ErrorHandler (__handler : value -> M value).

Definition isErrorHandler (op : Operation) : bool :=
  match op with
  | ErrorHandler _ => true
  | Transform _ => false
  end.

Record Gluify := mkGluify {
  initialValue : value;
  operations : list Operation;
  isLazy : bool;
  lazyInitializer : option (M value)
}.

(** [private createNext(newOperations)] *)
Definition createNext (this : Gluify) (newOperations : list Operation) : Gluify :=
  mkGluify (initialValue this) newOperations (isLazy this) (lazyInitializer this).

(** ** Executors *)

(** The mutable locals [result] and [error] of [run] / [runAsync]; [error]
    starts as [null] and holds whatever was caught last. *)
Record state := mkState { result : value; error : value }.

(** A call made by an executor: whom it called, with what, and how the call
    ended (for [runAsync], how the awaited call ended).  [i] is the position
    of the step in [operations]. *)
Inductive event :=
| EvSeed (out : outcome value)
| EvTransform (i : nat) (arg : value) (out : outcome value)
| EvHandler (i : nat) (err : value) (out : outcome value).

(** [try { result = <call> } catch (e) { error = e }] *)
Definition assign (s : state) (o : outcome value) : state :=
  match o with
  | Return v => mkState v (error s)
  | Throw e => mkState (result s) e
  end.

(** [try { result = <call>; error = null } catch (e) { error = e }] *)
Definition assignHandled (s : state) (o : outcome value) : state :=
  match o with
  | Return v => mkState v VNull
  | Throw e => mkState (result s) e
  end.

(** The two executors differ in one thing: [runAsync] awaits what each call
    returns.  [aw] is that difference. *)
Definition noAwait (v : value) : outcome value := Return v.

Definition settle (aw : value -> outcome value) (o : outcome value) : outcome value :=
  match o with
  | Return v => aw v
  | Throw e => Throw e
  end.

(** The lazy initializer, "if needed". *)
Definition start (aw : value -> outcome value) (this : Gluify) (h : heap)
  : state * heap * list event :=
  match isLazy this, lazyInitializer this with
  | true, Some init =>
      let '(o, h') := init h in
      let o' := settle aw o in
      (assign (mkState VUndefined VNull) o', h', [EvSeed o'])
  | _, _ => (mkState (initialValue this) VNull, h, [])
  end.

(** One iteration of [for (const op of this.operations)]. *)
Definition step (aw : value -> outcome value) (i : nat) (op : Operation)
    (s : state) (h : heap) : state * heap * list event :=
  if ToBoolean (error s) then
    match op with
    | ErrorHandler handler =>
        let '(o, h') := handler (error s) h in
        let o' := settle aw o in
        (assignHandled s o', h', [EvHandler i (error s) o'])
    | Transform _ => (s, h, [])
    end
  else
    match op with
    | ErrorHandler _ => (s, h, [])
    | Transform f =>
        let '(o, h') := f (result s) h in
        let o' := settle aw o in
        (assign s o', h', [EvTransform i (result s) o'])
    end.

Fixpoint walk (aw : value -> outcome value) (i : nat) (ops : list Operation)
    (s : state) (h : heap) : state * heap * list event :=
  match ops with
  | [] => (s, h, [])
  | op :: rest =>
      let '(s1, h1, t1) := step aw i op s h in
      let '(s2, h2, t2) := walk aw (S i) rest s1 h1 in
      (s2, h2, t1 ++ t2)
  end.

(** [if (error) throw error; return result] *)
Definition finish (s : state) : outcome value :=
  if ToBoolean (error s) then Throw (error s) else Return (result s).

Definition exec (aw : value -> outcome value) (this : Gluify) (h : heap)
  : outcome value * heap * list event :=
  let '(s0, h0, t0) := start aw this h in
  let '(s1, h1, t1) := walk aw 0 (operations this) s0 h0 in
  (finish s1, h1, t0 ++ t1).

(** [run(): T] *)
Definition run (this : Gluify) (h : heap) : outcome value * heap * list event :=
  exec noAwait this h.

(** [async runAsync(): Promise<Awaited<T>>], given by the settlement of the
    promise it returns: the promise of an [async] function adopts a returned
    promise. *)
Definition runAsync (this : Gluify) (h : heap) : outcome value * heap * list event :=
  let '(o, h', t) := exec await this h in
  (settle await o, h', t).

(** ** Natives

    The built-in methods the convenience transforms delegate to are not part
    of the repository; they are taken as parameters.  Only what the source
    itself spells out (spreads, the loops of [pick] and [omit], the tests of
    [defaultTo], [isNil] and [clone], and the fact that [sort] and [reverse]
    write into their receiver) is defined here. *)

Definition Callback := value -> M value.
Definition ItemCallback := value -> value -> M value.
Definition ReduceCallback := value -> value -> value -> M value.
(** [(a, b) => number]; comparators are taken to be pure. *)
Definition Comparator := value -> value -> outcome value.

Inductive pattern :=
| PString (s : string)
| PRegExp (source : string).

Class Natives := {
  Array_map : ItemCallback -> value -> M value;
  Array_filter : ItemCallback -> value -> M value;
  Array_reduce : ReduceCallback -> value -> value -> M value;
  Array_find : ItemCallback -> value -> M value;
  Array_some : ItemCallback -> value -> M value;
  Array_every : ItemCallback -> value -> M value;
  Array_slice : Z -> option Z -> value -> M value;
  (** the order [Array.prototype.sort] gives to the elements of its receiver *)
  Array_sort_order : option Comparator -> list value -> outcome (list value);
  Array_flat : value -> M value;
  Array_from_Set : value -> M value;
  Array_join : option string -> value -> M value;
  (** iteration of a value that is not an array (a string, a set, or a
      [TypeError] when the value is not iterable) *)
  iterateOther : value -> M (list value);
  (** [key in source], [source[key]] and the own enumerable properties that
      an object spread copies *)
  hasProperty : string -> value -> M bool;
  getProperty : value -> string -> M value;
  ownEnumerable : value -> M (list (string * value));
  Object_keys : value -> M value;
  Object_values : value -> M value;
  Object_entries : value -> M value;
  String_trim : value -> M value;
  String_split : pattern -> value -> M value;
  String_replace : pattern -> string -> value -> M value;
  String_toUpperCase : value -> M value;
  String_toLowerCase : value -> M value
}.

Definition typeError (msg : string) : value := VError (mkError "TypeError" msg).

(** Allocation of a fresh object: its reference is the next free index. *)
Definition alloc (c : cell) : M nat := fun h => (Return (length h), h ++ [c]).

(** The elements an array spread reads. *)
Definition elementsOf `{Natives} (v : value) : M (list value) :=
  fun h =>
    match v with
    | VArr r =>
        match h !! r with
        | Some (Arr l) => (Return l, h)
        | _ => iterateOther v h
        end
    | _ => iterateOther v h
    end.

(** [[...arr]] *)
Definition spreadArray `{Natives} (v : value) : M value :=
  let* l := elementsOf v in
  let* r := alloc (Arr l) in
  ret (VArr r).

(** [Array.prototype.sort] and [Array.prototype.reverse]: both write into
    the receiver and return it.  What a throwing comparator leaves in the
    receiver is implementation-defined; the model leaves it as it was. *)
Definition sortInPlace `{Natives} (compareFn : option Comparator) (v : value) : M value :=
  fun h =>
    match v with
    | VArr r =>
        match h !! r with
        | Some (Arr l) =>
            match Array_sort_order compareFn l with
            | Return l' => (Return (VArr r), <[r := Arr l']> h)
            | Throw e => (Throw e, h)
            end
        | _ => (Throw (typeError "sort is not a function"), h)
        end
    | _ => (Throw (typeError "sort is not a function"), h)
    end.

Definition reverseInPlace (v : value) : M value :=
  fun h =>
    match v with
    | VArr r =>
        match h !! r with
        | Some (Arr l) => (Return (VArr r), <[r := Arr (rev l)]> h)
        | _ => (Throw (typeError "reverse is not a function"), h)
        end
    | _ => (Throw (typeError "reverse is not a function"), h)
    end.

(** Property writes and deletes on an object literal under construction. *)
Fixpoint setProp (k : string) (v : value) (props : list (string * value))
  : list (string * value) :=
  match props with
  | [] => [(k, v)]
  | (k', v') :: rest =>
      if String.eqb k k' then (k', v) :: rest else (k', v') :: setProp k v rest
  end.

Definition deleteProp (k : string) (props : list (string * value))
  : list (string * value) :=
  List.filter (fun kv => negb (String.eqb k (fst kv))) props.

Definition writeProp (r : nat) (k : string) (v : value) : M unit :=
  fun h =>
    match h !! r with
    | Some (Obj ps) => (Return tt, <[r := Obj (setProp k v ps)]> h)
    | _ => (Return tt, h)
    end.

Definition removeProp (r : nat) (k : string) : M unit :=
  fun h =>
    match h !! r with
    | Some (Obj ps) => (Return tt, <[r := Obj (deleteProp k ps)]> h)
    | _ => (Return tt, h)
    end.

Definition isNullish (v : value) : bool :=
  match v with
  | VUndefined | VNull => true
  | _ => false
  end.

(** ** Step descriptors built by the builder methods *)

Section Descriptors.
Context `{Natives}.

(** [(value) => fn(value, ...args)] *)
Definition pipe_operation (fn : value -> list value -> M value) (args : list value)
  : Operation :=
  Transform (fun value => fn value args).

(** [async (value) => { const resolvedValue = value instanceof Promise ?
    await value : value; return fn(resolvedValue, ...args); }]

    The call never throws: it hands back the promise of the body's outcome.
    With an input that is a promise the body suspends at [await value]; when
    nothing awaits the call ([run]), the source runs [fn] only after [run()]
    has returned, whereas here [fn] runs within the step.  Statements about
    [run] therefore use this case for nothing but the fact that a promise
    comes back. *)
Definition pipeAsync_operation (fn : value -> list value -> M value)
    (args : list value) : Operation :=
  Transform (fun value h =>
    match (if instanceofPromise value then await value else Return value) with
    | Return resolvedValue =>
        let '(o, h') := fn resolvedValue args h in (Return (promiseOf o), h')
    | Throw e => (Return (VRejected e), h)
    end).

(** [(value) => { fn(value); return value; }] *)
Definition tap_operation (fn : Callback) : Operation :=
  Transform (fun value => let* _ := fn value in ret value).

(** the marker operation of [catch], with [__handler = handler] *)
Definition catch_operation (handler : value -> M value) : Operation :=
  ErrorHandler handler.

(** [(value) => { if (predicate(value)) return fn(value); return value; }] *)
Definition when_operation (predicate fn : Callback) : Operation :=
  Transform (fun value =>
    let* b := predicate value in
    if ToBoolean b then fn value else ret value).

(** [(arr) => [...arr].sort(compareFn)] *)
Definition sort_operation (compareFn : option Comparator) : Operation :=
  Transform (fun arr => let* copy := spreadArray arr in sortInPlace compareFn copy).

(** [(arr) => [...arr].reverse()] *)
Definition reverse_operation : Operation :=
  Transform (fun arr => let* copy := spreadArray arr in reverseInPlace copy).

Fixpoint pickLoop (source : value) (result : nat) (keys : list string) : M unit :=
  match keys with
  | [] => ret tt
  | key :: rest =>
      let* present := hasProperty key source in
      if (present : bool)
      then let* v := getProperty source key in
           let* _ := writeProp result key v in
           pickLoop source result rest
      else pickLoop source result rest
  end.

Fixpoint omitLoop (result : nat) (keys : list string) : M unit :=
  match keys with
  | [] => ret tt
  | key :: rest => let* _ := removeProp result key in omitLoop result rest
  end.

(** [{ ...a }] and [{ ...a, ...b }] *)
Definition spreadObject (sources : list value) : M value :=
  let* props :=
    fold_left
      (fun acc src =>
         let* props := acc in
         let* own := ownEnumerable src in
         ret (fold_left (fun ps kv => setProp (fst kv) (snd kv) ps) own props))
      sources (ret []) in
  let* r := alloc (Obj props) in
  ret (VObj r).

Definition pick_operation (keys : list string) : Operation :=
  Transform (fun obj =>
    let* result := alloc (Obj []) in
    let* _ := pickLoop obj result keys in
    ret (VObj result)).

Definition omit_operation (keys : list string) : Operation :=
  Transform (fun obj =>
    let* result := spreadObject [obj] in
    let* _ := match result with
              | VObj r => omitLoop r keys
              | _ => ret tt
              end in
    ret result).

Definition clone_operation : Operation :=
  Transform (fun value =>
    match value with
    | VArr _ => spreadArray value
    | VObj _ | VError _ | VResolved _ | VRejected _ => spreadObject [value]
    | _ => ret value
    end).
End Descriptors.

(** ** Builder methods

    A method is written in state-passing form: from the receiver and the
    heap it gives its result, the receiver afterwards, the heap afterwards
    and the calls it made to caller-supplied functions. *)

Definition Method (A : Type) := Gluify -> heap -> A * Gluify * heap * list event.

(** A method body that reads [this] and does nothing else. *)
Definition reading {A} (body : Gluify -> A) : Method A :=
  fun this h => (body this, this, h, []).

(** [function gluify(fn, ...args)] *)
Definition gluify (fn : list value -> M value) (args : list value) : Gluify :=
  let lazyInitializer := fn args in
  mkGluify VUndefined [] true (Some lazyInitializer).

Module Methods.
Section Methods.
Context `{Natives}.

Definition pipe (fn : value -> list value -> M value) (args : list value)
  : Method Gluify :=
  reading (fun this => createNext this (operations this ++ [pipe_operation fn args])).

Definition pipeAsync (fn : value -> list value -> M value) (args : list value)
  : Method Gluify :=
  reading (fun this =>
    createNext this (operations this ++ [pipeAsync_operation fn args])).

Definition tap (fn : Callback) : Method Gluify :=
  reading (fun this => createNext this (operations this ++ [tap_operation fn])).

Definition catch (handler : value -> M value) : Method Gluify :=
  reading (fun this =>
    createNext this (operations this ++ [catch_operation handler])).

Definition recover (fallbackValue : value) : Method Gluify :=
  catch (fun _ => ret fallbackValue).

Definition when (predicate fn : Callback) : Method Gluify :=
  reading (fun this =>
    createNext this (operations this ++ [when_operation predicate fn])).

(** Array utilities *)

Definition map (fn : ItemCallback) : Method Gluify :=
  reading (fun this =>
    let operation := Transform (fun arr => Array_map fn arr) in
    createNext this (operations this ++ [operation])).

Definition filter (predicate : ItemCallback) : Method Gluify :=
  reading (fun this =>
    let operation := Transform (fun arr => Array_filter predicate arr) in
    createNext this (operations this ++ [operation])).

Definition reduce (fn : ReduceCallback) (initialValue : value) : Method Gluify :=
  reading (fun this =>
    let operation := Transform (fun arr => Array_reduce fn initialValue arr) in
    createNext this (operations this ++ [operation])).

Definition find (predicate : ItemCallback) : Method Gluify :=
  reading (fun this =>
    let operation := Transform (fun arr => Array_find predicate arr) in
    createNext this (operations this ++ [operation])).

Definition some (predicate : ItemCallback) : Method Gluify :=
  reading (fun this =>
    let operation := Transform (fun arr => Array_some predicate arr) in
    createNext this (operations this ++ [operation])).

Definition every (predicate : ItemCallback) : Method Gluify :=
  reading (fun this =>
    let operation := Transform (fun arr => Array_every predicate arr) in
    createNext this (operations this ++ [operation])).

Definition take (n : Z) : Method Gluify :=
  reading (fun this =>
    let operation := Transform (fun arr => Array_slice 0%Z (Some n) arr) in
    createNext this (operations this ++ [operation])).

Definition skip (n : Z) : Method Gluify :=
  reading (fun this =>
    let operation := Transform (fun arr => Array_slice n None arr) in
    createNext this (operations this ++ [operation])).

Definition sort (compareFn : option Comparator) : Method Gluify :=
  reading (fun this =>
    createNext this (operations this ++ [sort_operation compareFn])).

Definition reverse : Method Gluify :=
  reading (fun this => createNext this (operations this ++ [reverse_operation])).

Definition flat : Method Gluify :=
  reading (fun this =>
    let operation := Transform (fun arr => Array_flat arr) in
    createNext this (operations this ++ [operation])).

Definition unique : Method Gluify :=
  reading (fun this =>
    let operation := Transform (fun arr => Array_from_Set arr) in
    createNext this (operations this ++ [operation])).

(** Object utilities *)

Definition pick (keys : list string) : Method Gluify :=
  reading (fun this => createNext this (operations this ++ [pick_operation keys])).

Definition omit (keys : list string) : Method Gluify :=
  reading (fun this => createNext this (operations this ++ [omit_operation keys])).

Definition keys : Method Gluify :=
  reading (fun this =>
    let operation := Transform (fun obj => Object_keys obj) in
    createNext this (operations this ++ [operation])).

Definition values : Method Gluify :=
  reading (fun this =>
    let operation := Transform (fun obj => Object_values obj) in
    createNext this (operations this ++ [operation])).

Definition entries : Method Gluify :=
  reading (fun this =>
    let operation := Transform (fun obj => Object_entries obj) in
    createNext this (operations this ++ [operation])).

Definition merge (other : value) : Method Gluify :=
  reading (fun this =>
    let operation := Transform (fun obj => spreadObject [obj; other]) in
    createNext this (operations this ++ [operation])).

(** String utilities *)

Definition trim : Method Gluify :=
  reading (fun this =>
    let operation := Transform (fun str => String_trim str) in
    createNext this (operations this ++ [operation])).

Definition split (separator : pattern) : Method Gluify :=
  reading (fun this =>
    let operation := Transform (fun str => String_split separator str) in
    createNext this (operations this ++ [operation])).

Definition join (separator : option string) : Method Gluify :=
  reading (fun this =>
    let operation := Transform (fun arr => Array_join separator arr) in
    createNext this (operations this ++ [operation])).

Definition replace (searchValue : pattern) (replaceValue : string) : Method Gluify :=
  reading (fun this =>
    let operation :=
      Transform (fun str => String_replace searchValue replaceValue str) in
    createNext this (operations this ++ [operation])).

Definition toUpperCase : Method Gluify :=
  reading (fun this =>
    let operation := Transform (fun str => String_toUpperCase str) in
    createNext this (operations this ++ [operation])).

Definition toLowerCase : Method Gluify :=
  reading (fun this =>
    let operation := Transform (fun str => String_toLowerCase str) in
    createNext this (operations this ++ [operation])).

(** General utilities *)

Definition defaultTo (defaultValue : value) : Method Gluify :=
  reading (fun this =>
    let operation :=
      Transform (fun value => ret (if isNullish value then defaultValue else value)) in
    createNext this (operations this ++ [operation])).

Definition isNil : Method Gluify :=
  reading (fun this =>
    let operation := Transform (fun value => ret (VBool (isNullish value))) in
    createNext this (operations this ++ [operation])).

Definition clone : Method Gluify :=
  reading (fun this => createNext this (operations this ++ [clone_operation])).
End Methods.
End Methods.

(** ** Reading a trace *)

(** Where a call sits in the walk: [0] for the seed producer, [S i] for the
    step at index [i]. *)
Definition position (ev : event) : nat :=
  match ev with
  | EvSeed _ => 0
  | EvTransform i _ _ => S i
  | EvHandler i _ _ => S i
  end.

Definition outcomeOf (ev : event) : outcome value :=
  match ev with
  | EvSeed o => o
  | EvTransform _ _ o => o
  | EvHandler _ _ o => o
  end.

Definition failed (ev : event) : bool :=
  match outcomeOf ev with
  | Throw _ => true
  | Return _ => false
  end.

Definition isHandlerCall (ev : event) : bool :=
  match ev with
  | EvHandler _ _ _ => true
  | _ => false
  end.


(** A call without the position of its step. *)
Inductive call :=
| CallSeed (out : outcome value)
| CallTransform (arg : value) (out : outcome value)
| CallHandler (err : value) (out : outcome value).

Definition callOf (ev : event) : call :=
  match ev with
  | EvSeed o => CallSeed o
  | EvTransform _ a o => CallTransform a o
  | EvHandler _ e o => CallHandler e o
  end.

(** The direct composition [fn(...f2(f1(v)))] of piped functions, each with
    the extra arguments it was piped with. *)
Definition PipeFunction := (value -> list value -> M value).

Fixpoint compose (fs : list (PipeFunction * list value)) (v : value) : M value :=
  match fs with
  | [] => ret v
  | (fn, args) :: rest => let* v' := fn v args in compose rest v'
  end.



(** ** Derived notions used by the statements *)

(** The locals, the heap and the calls made once the seed has been obtained
    and the first [n] steps have been walked. *)
Definition prefixRun (aw : value -> outcome value) (this : Gluify) (n : nat) (h : heap)
  : state * heap * list event :=
  let '(s0, h0, t0) := start aw this h in
  let '(s1, h1, t1) := walk aw 0 (take n (operations this)) s0 h0 in
  (s1, h1, t0 ++ t1).

(** The same pipeline with every [ErrorHandler] step removed. *)
Definition withoutHandlers (this : Gluify) : Gluify :=
  createNext this (List.filter (fun op => negb (isErrorHandler op)) (operations this)).

(** Calling an operation as the function it is; the body of the marker
    operation of [catch] returns its argument. *)
Definition callOperation (op : Operation) (v : value) : M value :=
  match op with
  | Transform f => f v
  | ErrorHandler _ => ret v
  end.

(** The seed is a lazy producer, or a concrete value that is not deferred. *)
Definition seedNotDeferred (this : Gluify) : Prop :=
  (isLazy this = true /\ lazyInitializer this <> None)
  \/ instanceofPromise (initialValue this) = false.




(** ** The builder surface, reified

    One constructor per builder method of the class, with its arguments. *)
Inductive Builder :=
| BPipe (fn : PipeFunction) (args : list value)
| BPipeAsync (fn : PipeFunction) (args : list value)
| BTap (fn : Callback)
| BCatch (handler : value -> M value)
| BRecover (fallbackValue : value)
| BWhen (predicate fn : Callback)
| BMap (fn : ItemCallback)
| BFilter (predicate : ItemCallback)
| BReduce (fn : ReduceCallback) (initialValue : value)
| BFind (predicate : ItemCallback)
| BSome (predicate : ItemCallback)
| BEvery (predicate : ItemCallback)
| BTake (n : Z)
| BSkip (n : Z)
| BSort (compareFn : option Comparator)
| BReverse
| BFlat
| BUnique
| BPick (keys : list string)
| BOmit (keys : list string)
| BKeys
| BValues
| BEntries
| BMerge (other : value)
| BTrim
| BSplit (separator : pattern)
| BJoin (separator : option string)
| BReplace (searchValue : pattern) (replaceValue : string)
| BToUpperCase
| BToLowerCase
| BDefaultTo (defaultValue : value)
| BIsNil
| BClone.

Definition invoke `{Natives} (b : Builder) : Method Gluify :=
  match b with
  | BPipe fn args => Methods.pipe fn args
  | BPipeAsync fn args => Methods.pipeAsync fn args
  | BTap fn => Methods.tap fn
  | BCatch handler => Methods.catch handler
  | BRecover fallbackValue => Methods.recover fallbackValue
  | BWhen predicate fn => Methods.when predicate fn
  | BMap fn => Methods.map fn
  | BFilter predicate => Methods.filter predicate
  | BReduce fn initialValue => Methods.reduce fn initialValue
  | BFind predicate => Methods.find predicate
  | BSome predicate => Methods.some predicate
  | BEvery predicate => Methods.every predicate
  | BTake n => Methods.take n
  | BSkip n => Methods.skip n
  | BSort compareFn => Methods.sort compareFn
  | BReverse => Methods.reverse
  | BFlat => Methods.flat
  | BUnique => Methods.unique
  | BPick keys => Methods.pick keys
  | BOmit keys => Methods.omit keys
  | BKeys => Methods.keys
  | BValues => Methods.values
  | BEntries => Methods.entries
  | BMerge other => Methods.merge other
  | BTrim => Methods.trim
  | BSplit separator => Methods.split separator
  | BJoin separator => Methods.join separator
  | BReplace searchValue replaceValue => Methods.replace searchValue replaceValue
  | BToUpperCase => Methods.toUpperCase
  | BToLowerCase => Methods.toLowerCase
  | BDefaultTo defaultValue => Methods.defaultTo defaultValue
  | BIsNil => Methods.isNil
  | BClone => Methods.clone
  end.

(** A fluent chain [this.b1(..).b2(..)...]: each method is called on what the
    previous one returned. *)
Fixpoint build `{Natives} (bs : list Builder) (this : Gluify) (h : heap)
  : Gluify * heap * list event :=
  match bs with
  | [] => (this, h, [])
  | b :: rest =>
      let '(next, _, h1, t1) := invoke b this h in
      let '(g, h2, t2) := build rest next h1 in
      (g, h2, t1 ++ t2)
  end.

(** ** Functions and a native library for the closed examples *)

Module Examples.
(** [() => v] *)
Definition producing (v : value) : list value -> M value := fun _ => ret v.
(** [() => { throw e }] *)
Definition throwing (e : value) : list value -> M value := fun _ => throw e.
(** [x => f(x)] on a number *)
Definition numeric (f : Z -> Z) : PipeFunction :=
  fun v _ => ret (match v with VNum n => VNum (f n) | _ => VUndefined end).
(** [x => x instanceof Promise] *)
Definition isPromise : PipeFunction :=
  fun v _ => ret (VBool (instanceofPromise v)).
(** [(a, b) => a - b] *)
Definition ascending : Comparator :=
  fun a b => Return (match a, b with VNum x, VNum y => VNum (x - y) | _, _ => VNum 0 end).

Definition errE : value := VError (mkError "Error" "e").
Definition errE2 : value := VError (mkError "Error" "e2").

(** Insertion under a comparator, as one admissible [Array.prototype.sort]. *)
Fixpoint insertBy (cmp : Comparator) (x : value) (l : list value)
  : outcome (list value) :=
  match l with
  | [] => Return [x]
  | y :: rest =>
      match cmp x y with
      | Throw e => Throw e
      | Return (VNum c) =>
          if (c <? 0)%Z then Return (x :: y :: rest)
          else match insertBy cmp x rest with
               | Return l' => Return (y :: l')
               | Throw e => Throw e
               end
      | Return _ =>
          match insertBy cmp x rest with
          | Return l' => Return (y :: l')
          | Throw e => Throw e
          end
      end
  end.

Fixpoint sortBy (cmp : Comparator) (l : list value) : outcome (list value) :=
  match l with
  | [] => Return []
  | x :: rest =>
      match sortBy cmp rest with
      | Return sorted => insertBy cmp x sorted
      | Throw e => Throw e
      end
  end.

Definition unavailable {A} : M A := throw (typeError "native not available").

(** Only [sort] under a comparator is available in this library. *)
Definition sampleNatives : Natives := {|
  Array_map := fun _ _ => unavailable;
  Array_filter := fun _ _ => unavailable;
  Array_reduce := fun _ _ _ => unavailable;
  Array_find := fun _ _ => unavailable;
  Array_some := fun _ _ => unavailable;
  Array_every := fun _ _ => unavailable;
  Array_slice := fun _ _ _ => unavailable;
  Array_sort_order := fun compareFn l =>
    match compareFn with
    | Some cmp => sortBy cmp l
    | None => Throw (typeError "native not available")
    end;
  Array_flat := fun _ => unavailable;
  Array_from_Set := fun _ => unavailable;
  Array_join := fun _ _ => unavailable;
  iterateOther := fun _ => unavailable;
  hasProperty := fun _ _ => unavailable;
  getProperty := fun _ _ => unavailable;
  ownEnumerable := fun _ => unavailable;
  Object_keys := fun _ => unavailable;
  Object_values := fun _ => unavailable;
  Object_entries := fun _ => unavailable;
  String_trim := fun _ => unavailable;
  String_split := fun _ _ => unavailable;
  String_replace := fun _ _ _ => unavailable;
  String_toUpperCase := fun _ => unavailable;
  String_toLowerCase := fun _ => unavailable
|}.

(** [gluify(fn, ...args).b1(..)...] *)
Definition chain (fn : list value -> M value) (args : list value) (bs : list Builder)
  : Gluify :=
  fst (fst (@build sampleNatives bs (gluify fn args) [])).

(** [gluify(() => 5).pipe(x => x * 2).pipe(x => x + 10)] *)
Definition arithmetic : Gluify :=
  chain (producing (VNum 5)) []
    [BPipe (numeric (fun x => x * 2)%Z) []; BPipe (numeric (fun x => x + 10)%Z) []].


(** [new Gluify(Promise.resolve(5)).pipeAsync(x => x instanceof Promise)] and
    the same with [pipe] *)
Definition eagerPromise : Gluify := mkGluify (VResolved (VNum 5)) [] false None.


Definition eagerPromisePlain : Gluify :=
  fst (fst (@build sampleNatives [BPipe isPromise []] eagerPromise [])).

(** [async x => x + 1], on a number *)
Definition asyncSucc : PipeFunction :=
  fun v _ => ret (VResolved (match v with VNum n => VNum (n + 1) | _ => VUndefined end)).


(** [gluify(() => 42).catch(() => 'early').pipe(() => { throw Error('e') })
    .catch(() => 'recovered')] *)
Definition handlerBeforeFailure : Gluify :=
  chain (producing (VNum 42)) []
    [BCatch (fun _ => ret (VStr "early"));
     BPipe (fun _ _ => throw errE) [];
     BCatch (fun _ => ret (VStr "recovered"))].

(** [gluify(() => 42).pipe(x => x * 2).catch(() => 'unused')] *)
Definition neverFails : Gluify :=
  chain (producing (VNum 42)) []
    [BPipe (numeric (fun x => x * 2)%Z) []; BCatch (fun _ => ret (VStr "unused"))].

(** [gluify(() => { throw Error('e') }).catch(() => 10).pipe(x => x * 2)] *)
Definition recoverThenDouble : Gluify :=
  chain (throwing errE) []
    [BCatch (fun _ => ret (VNum 10)); BPipe (numeric (fun x => x * 2)%Z) []].

End Examples.

(** ** Notions used by the further properties *)

(** The pipeline [this.m(...)] that a builder method returns. *)
Definition after (this : Gluify) (m : Method Gluify) : Gluify :=
  fst (fst (fst (m this []))).

(** Reading the property [k] of an object literal. *)
Fixpoint getProp (k : string) (props : list (string * value)) : option value :=
  match props with
  | [] => None
  | (k', v) :: rest => if String.eqb k k' then Some v else getProp k rest
  end.

(** A call that did not hand back a promise. *)
Definition plainOutcome (o : outcome value) : Prop :=
  match o with
  | Return v => instanceofPromise v = false
  | Throw _ => True
  end.

Definition isTransform (op : Operation) : bool := negb (isErrorHandler op).

(** Two sets of locals that the executors cannot tell apart: the same value,
    and the same stored failure or two stored failures that are both falsy. *)
Definition sameLocals (s s' : state) : Prop :=
  result s = result s'
  /\ (error s = error s'
      \/ (ToBoolean (error s) = false /\ ToBoolean (error s') = false)).

(** What [run] ends with when its last call ended with [o] and the value
    before that call was [stale]: a failure that is falsy is not seen by
    [if (error)], so the value computed before it is returned. *)
Definition ending (stale : value) (o : outcome value) : outcome value :=
  match o with
  | Return v => Return v
  | Throw e => if ToBoolean e then Throw e else Return stale
  end.

Module MoreExamples.
(** The own enumerable properties of a plain object on the heap. *)
Definition ownProps (v : value) : M (list (string * value)) :=
  fun h =>
    match v with
    | VObj r =>
        match h !! r with
        | Some (Obj ps) => (Return ps, h)
        | _ => (Return [], h)
        end
    | _ => (Return [], h)
    end.

(** The sample library, with object spreads available on plain objects. *)
Definition objectNatives : Natives := {|
  Array_map := @Array_map Examples.sampleNatives;
  Array_filter := @Array_filter Examples.sampleNatives;
  Array_reduce := @Array_reduce Examples.sampleNatives;
  Array_find := @Array_find Examples.sampleNatives;
  Array_some := @Array_some Examples.sampleNatives;
  Array_every := @Array_every Examples.sampleNatives;
  Array_slice := @Array_slice Examples.sampleNatives;
  Array_sort_order := @Array_sort_order Examples.sampleNatives;
  Array_flat := @Array_flat Examples.sampleNatives;
  Array_from_Set := @Array_from_Set Examples.sampleNatives;
  Array_join := @Array_join Examples.sampleNatives;
  iterateOther := @iterateOther Examples.sampleNatives;
  hasProperty := @hasProperty Examples.sampleNatives;
  getProperty := @getProperty Examples.sampleNatives;
  ownEnumerable := ownProps;
  Object_keys := @Object_keys Examples.sampleNatives;
  Object_values := @Object_values Examples.sampleNatives;
  Object_entries := @Object_entries Examples.sampleNatives;
  String_trim := @String_trim Examples.sampleNatives;
  String_split := @String_split Examples.sampleNatives;
  String_replace := @String_replace Examples.sampleNatives;
  String_toUpperCase := @String_toUpperCase Examples.sampleNatives;
  String_toLowerCase := @String_toLowerCase Examples.sampleNatives
|}.

(** [{ id: 1, name: 'Ann', password: 'x' }] and [{ name: 'Bob', admin: true }] *)
Definition user : list (string * value) :=
  [("id"%string, VNum 1); ("name"%string, VStr "Ann"); ("password"%string, VStr "x")].
Definition patch : list (string * value) :=
  [("name"%string, VStr "Bob"); ("admin"%string, VBool true)].

(** [x => x + 1] and [x => x > 5] *)
Definition succ : PipeFunction := Examples.numeric (fun x => x + 1)%Z.
Definition greaterThanFive : Callback :=
  fun v => ret (VBool (match v with VNum n => (5 <? n)%Z | _ => false end)).
Definition double : Callback :=
  fun v => ret (match v with VNum n => VNum (n * 2) | _ => VUndefined end).

(** [gluify(() => { throw Error('e') }).pipe(x => x + 1)] *)
Definition failsThenPipes : Gluify :=
  Examples.chain (Examples.throwing Examples.errE) [] [BPipe succ []].

(** [gluify(() => { throw Error('e') }).catch(() => 'first').catch(() => 'second')] *)
Definition firstWins : Gluify :=
  Examples.chain (Examples.throwing Examples.errE) []
    [BCatch (fun _ => ret (VStr "first")); BCatch (fun _ => ret (VStr "second"))].


(** [new Gluify(Promise.resolve(5)).tap(() => {}).pipe(x => x instanceof Promise)] *)
Definition tapThenTest : Gluify :=
  fst (fst (@build Examples.sampleNatives
              [BTap (fun _ => ret VUndefined); BPipe Examples.isPromise []]
              Examples.eagerPromise [])).

(** [gluify(() => 5).tap(() => 'ignored')] *)
Definition tapped : Gluify :=
  Examples.chain (Examples.producing (VNum 5)) [] [BTap (fun _ => ret (VStr "ignored"))].

(** [gluify(() => { throw Error('e') }).catch(async () => { throw Error('e2') })] *)
Definition rejectingHandler : value -> M value :=
  fun _ => ret (VRejected Examples.errE2).

(** [gluify(() => { throw undefined }).pipe(x => x === undefined)] *)
Definition isUndefined : PipeFunction :=
  fun v _ => ret (VBool (match v with VUndefined => true | _ => false end)).
Definition throwsUndefinedThenTests : Gluify :=
  Examples.chain (Examples.throwing VUndefined) [] [BPipe isUndefined []].

(** [new Gluify(user)] on a heap holding [user] at reference [0] *)
Definition eagerUser : Gluify := mkGluify (VObj 0) [] false None.

(** [gluify(() => [3, 1, 2])] on a heap holding the array at reference [0] *)
Definition eagerArray : Gluify := mkGluify (VArr 0) [] false None.
End MoreExamples.

(** * Properties *)

(** ** General facts about the walk *)

Lemma walk_app aw i xs ys s h :
  walk aw i (xs ++ ys) s h =
  let '(s1, h1, t1) := walk aw i xs s h in
  let '(s2, h2, t2) := walk aw (i + length xs) ys s1 h1 in
  (s2, h2, t1 ++ t2).
Proof.
  revert i s h. induction xs as [|x xs IH]; intros i s h; simpl.
  - rewrite Nat.add_0_r. destruct (walk aw i ys s h) as [[s2 h2] t2]. reflexivity.
  - destruct (step aw i x s h) as [[s1 h1] t1].
    rewrite IH. destruct (walk aw (S i) xs s1 h1) as [[s2 h2] t2].
    replace (S i + length xs) with (i + S (length xs)) by lia.
    destruct (walk aw (i + S (length xs)) ys s2 h2) as [[s3 h3] t3].
    rewrite app_assoc. reflexivity.
Qed.

Lemma step_positions aw i op s h s' h' t :
  step aw i op s h = (s', h', t) ->
  t = [] \/ exists ev, t = [ev] /\ position ev = S i.
Proof.
  unfold step. intros Hs.
  destruct (ToBoolean (error s)); destruct op as [f|hd];
    try (inversion Hs; auto; fail).
  - destruct (hd (error s) h) as [o h1]. inversion Hs; subst.
    right. eexists; split; eauto.
  - destruct (f (result s) h) as [o h1]. inversion Hs; subst.
    right. eexists; split; eauto.
Qed.

(** Calls are made in step order: positions in a trace are strictly
    increasing and lie in the walked range. *)
Lemma walk_positions aw ops : forall i s h s' h' t,
  walk aw i ops s h = (s', h', t) ->
  StronglySorted lt (List.map position t) /\
  Forall (fun ev => i < position ev <= i + length ops) t.
Proof.
  induction ops as [|op ops IH]; intros i s h s' h' t Hw; simpl in Hw.
  - inversion Hw; subst. split; constructor.
  - destruct (step aw i op s h) as [[s1 h1] t1] eqn:Hs.
    destruct (walk aw (S i) ops s1 h1) as [[s2 h2] t2] eqn:Hr.
    inversion Hw; subst. destruct (IH _ _ _ _ _ _ Hr) as [Hsorted Hrange].
    assert (Hrange' : Forall (fun ev => i < position ev <= i + length (op :: ops)) t2).
    { eapply Forall_impl; [exact Hrange|]. simpl. intros ev ?. lia. }
    destruct (step_positions _ _ _ _ _ _ _ _ Hs) as [->|[ev [-> Hp]]]; simpl.
    + split; assumption.
    + split.
      * constructor; [assumption|]. apply List.Forall_map.
        eapply Forall_impl; [exact Hrange|]. simpl. intros ev' ?. lia.
      * constructor; [simpl; lia | assumption].
Qed.

(** ** Order preservation *)

Lemma walk_pipes fs : forall i v0 h0 v h',
  compose fs v0 h0 = (Return v, h') ->
  exists t,
    walk noAwait i (List.map (fun fa => pipe_operation (fst fa) (snd fa)) fs)
         (mkState v0 VNull) h0 = (mkState v VNull, h', t)
    /\ List.map position t = seq (S i) (length fs).
Proof.
  induction fs as [|[fn args] fs IH]; intros i v0 h0 v h' Hc; simpl in *.
  - inversion Hc; subst. exists []. split; reflexivity.
  - unfold bind in Hc. unfold step; simpl.
    destruct (fn v0 args h0) as [[v1|e] h1] eqn:Hf; [|discriminate].
    simpl. destruct (IH (S i) v1 h1 v h' Hc) as [t [Hw Hp]].
    unfold assign; simpl. rewrite Hw.
    eexists; split; [reflexivity|]. simpl. rewrite Hp. reflexivity.
Qed.

(** C1.  A pipeline made by [gluify] whose steps are the piped functions
    [f1, ..., fn] in that order, whose producer returns [v0] and whose
    direct composition [fn(...f2(f1(v0)))] returns [v]: [run] returns [v],
    leaves the heap the composition leaves, and calls the producer and then
    each step once, in append order. *)
Theorem C1_run_applies_pipes_in_append_order
    (this : Gluify) (init : M value) (fs : list (PipeFunction * list value))
    (h h0 h' : heap) (v0 v : value) :
  isLazy this = true ->
  lazyInitializer this = Some init ->
  operations this = List.map (fun fa => pipe_operation (fst fa) (snd fa)) fs ->
  init h = (Return v0, h0) ->
  compose fs v0 h0 = (Return v, h') ->
  exists t,
    run this h = (Return v, h', t)
    /\ List.map position t = seq 0 (S (length fs)).
Proof.
  intros Hlazy Hinit Hops Hseed Hc.
  destruct (walk_pipes fs 0 v0 h0 v h' Hc) as [t [Hw Hp]].
  exists (EvSeed (Return v0) :: t).
  unfold run, exec, start. rewrite Hlazy, Hinit, Hseed, Hops. simpl.
  rewrite Hw. simpl. rewrite Hp. split; reflexivity.
Qed.

Lemma C1_example_20 :
  exists t,
    run Examples.arithmetic [] = (Return (VNum 20), [], t)
    /\ List.map position t = seq 0 3.
Proof.
  apply (C1_run_applies_pipes_in_append_order
           Examples.arithmetic
           (Examples.producing (VNum 5) [])
           [(Examples.numeric (fun x => x * 2)%Z, []);
            (Examples.numeric (fun x => x + 10)%Z, [])]
           [] [] [] (VNum 5) (VNum 20));
    reflexivity.
Defined.

(** ** The state of the walk after [n] steps *)

Lemma exec_prefixRun aw this h :
  exec aw this h =
  let '(s, h', t) := prefixRun aw this (length (operations this)) h in
  (finish s, h', t).
Proof.
  unfold exec, prefixRun. rewrite firstn_all.
  destruct (start aw this h) as [[s0 h0] t0].
  destruct (walk aw 0 (operations this) s0 h0) as [[s1 h1] t1]. reflexivity.
Qed.

Lemma prefixRun_extend aw this n m h s1 h1 t1 :
  prefixRun aw this n h = (s1, h1, t1) ->
  prefixRun aw this (n + m) h =
  let '(s2, h2, t2) := walk aw n (take m (drop n (operations this))) s1 h1 in
  (s2, h2, t1 ++ t2).
Proof.
  unfold prefixRun. destruct (start aw this h) as [[s0 h0] t0].
  rewrite <- take_take_drop, walk_app.
  destruct (walk aw 0 (take n (operations this)) s0 h0) as [[sa ha] ta].
  intros Heq; inversion Heq; subst. simpl.
  destruct (decide (n <= length (operations this))) as [Hle|Hgt].
  - rewrite length_take, Nat.min_l by exact Hle.
    destruct (walk aw n (take m (drop n (operations this))) s1 h1) as [[s2 h2] t2].
    rewrite app_assoc. reflexivity.
  - rewrite drop_ge by lia. rewrite take_nil. simpl.
    rewrite app_assoc. reflexivity.
Qed.

Lemma prefixRun_finish aw this n h s1 h1 t1 :
  prefixRun aw this n h = (s1, h1, t1) ->
  exec aw this h =
  let '(s2, h2, t2) := walk aw n (drop n (operations this)) s1 h1 in
  (finish s2, h2, t1 ++ t2).
Proof.
  intros Hp. rewrite exec_prefixRun.
  destruct (decide (n <= length (operations this))) as [Hle|Hgt].
  - replace (length (operations this)) with (n + (length (operations this) - n)) by lia.
    rewrite (prefixRun_extend _ _ _ _ _ _ _ _ Hp).
    rewrite take_ge by (rewrite length_drop; lia).
    destruct (walk aw n (drop n (operations this)) s1 h1) as [[s2 h2] t2]. reflexivity.
  - rewrite drop_ge by lia. simpl. rewrite app_nil_r.
    revert Hp. unfold prefixRun. destruct (start aw this h) as [[s0 h0] t0].
    rewrite firstn_all, take_ge by lia.
    destruct (walk aw 0 (operations this) s0 h0) as [[sa ha] ta].
    intros Heq; inversion Heq; subst. reflexivity.
Qed.

(** In the errored state every [Transform] is skipped. *)
Lemma walk_skips_transforms aw ts : forall i r e h,
  ToBoolean e = true ->
  Forall (fun op => isErrorHandler op = false) ts ->
  walk aw i ts (mkState r e) h = (mkState r e, h, []).
Proof.
  induction ts as [|op ts IH]; intros i r e h He Hts; simpl; [reflexivity|].
  inversion Hts as [|? ? Hop Hrest]; subst.
  destruct op as [f|hd]; [|discriminate]. unfold step; simpl. rewrite He.
  rewrite IH by assumption. reflexivity.
Qed.

(** Out of the errored state every [ErrorHandler] is skipped. *)
Lemma walk_skips_handlers aw hs : forall i s h,
  ToBoolean (error s) = false ->
  Forall (fun op => isErrorHandler op = true) hs ->
  walk aw i hs s h = (s, h, []).
Proof.
  induction hs as [|op hs IH]; intros i s h He Hhs; simpl; [reflexivity|].
  inversion Hhs as [|? ? Hop Hrest]; subst.
  destruct op as [f|hd]; [discriminate|]. unfold step. rewrite He.
  rewrite IH by assumption. reflexivity.
Qed.








(** ** Handler search *)

Lemma handler_search this n r e h h1 h2 t1 ts rest handler o :
  prefixRun noAwait this n h = (mkState r e, h1, t1) ->
  ToBoolean e = true ->
  drop n (operations this) = ts ++ ErrorHandler handler :: rest ->
  Forall (fun op => isErrorHandler op = false) ts ->
  handler e h1 = (o, h2) ->
  prefixRun noAwait this (n + length ts + 1) h =
    (match o with
     | Return v => mkState v VNull
     | Throw e' => mkState r e'
     end, h2, t1 ++ [EvHandler (n + length ts) e o])
  /\ drop (n + length ts + 1) (operations this) = rest.
Proof.
  intros Hp He Hd Hts Hh. split.
  - rewrite <- Nat.add_assoc. rewrite (prefixRun_extend _ _ _ _ _ _ _ _ Hp), Hd.
    replace (take (length ts + 1) (ts ++ ErrorHandler handler :: rest))
      with (ts ++ [ErrorHandler handler]).
    2:{ rewrite take_app_add'; [|reflexivity]. reflexivity. }
    rewrite walk_app, walk_skips_transforms by assumption. simpl.
    unfold step; simpl. rewrite He, Hh. destruct o; reflexivity.
  - rewrite <- Nat.add_assoc, <- drop_drop, Hd.
    rewrite drop_app_add'; [|reflexivity]. reflexivity.
Qed.




(** ** Recovery and the unrecovered failure *)



(** ** Handler reachability *)

Lemma exec_positions aw this h o h' t :
  exec aw this h = (o, h', t) ->
  StronglySorted lt (List.map position t).
Proof.
  unfold exec, start.
  destruct (isLazy this), (lazyInitializer this) as [init|];
    try (destruct (walk aw 0 (operations this) (mkState (initialValue this) VNull) h)
           as [[s1 h1] t1] eqn:Hw;
         intros Heq; inversion Heq; subst; simpl;
         exact (proj1 (walk_positions _ _ _ _ _ _ _ _ Hw))).
  destruct (init h) as [o0 h0].
  destruct (walk aw 0 (operations this)
              (assign (mkState VUndefined VNull) (settle aw o0)) h0)
    as [[s1 h1] t1] eqn:Hw.
  intros Heq; inversion Heq; subst; simpl.
  destruct (walk_positions _ _ _ _ _ _ _ _ Hw) as [Hsorted Hrange].
  constructor; [assumption|]. apply List.Forall_map.
  eapply Forall_impl; [exact Hrange|]. simpl. intros ev ?. lia.
Qed.

Lemma sorted_after (l1 l2 : list nat) (x : nat) :
  StronglySorted lt (l1 ++ x :: l2) -> Forall (fun y => x < y) l2.
Proof.
  induction l1 as [|a l1 IH]; simpl; intros Hs.
  - inversion Hs; subst. assumption.
  - inversion Hs; subst. auto.
Qed.

Lemma calls_after_are_later aw this h o h' t1 ev t2 :
  exec aw this h = (o, h', t1 ++ ev :: t2) ->
  Forall (fun ev' => position ev < position ev') t2.
Proof.
  intros He. apply exec_positions in He.
  rewrite List.map_app in He. simpl in He.
  apply sorted_after in He. rewrite List.Forall_forall in He.
  rewrite List.Forall_forall. intros ev' Hin. apply He.
  apply List.in_map. exact Hin.
Qed.

(** C4.  Take any call [ev] of an execution that fails (the seed producer,
    a transform or a handler).  Every handler called after it belongs to a
    step placed after the failing one; a handler placed before it (or the
    failing handler itself) is not called again, under [run] and under
    [runAsync] alike. *)
Theorem C4_only_later_handlers_are_called_after_a_failure
    (this : Gluify) (h h' : heap) (o : outcome value)
    (t1 t2 : list event) (ev : event) :
  run this h = (o, h', t1 ++ ev :: t2) \/ runAsync this h = (o, h', t1 ++ ev :: t2) ->
  failed ev = true ->
  (forall j err out, In (EvHandler j err out) t2 -> position ev <= j)
  /\ (forall j err out, S j <= position ev -> ~ In (EvHandler j err out) t2).
Proof.
  intros Hrun _.
  assert (Hlater : Forall (fun ev' => position ev < position ev') t2).
  { destruct Hrun as [Hr|Hr].
    - exact (calls_after_are_later _ _ _ _ _ _ _ _ Hr).
    - unfold runAsync in Hr.
      destruct (exec await this h) as [[o1 h1] t] eqn:He.
      inversion Hr; subst. exact (calls_after_are_later _ _ _ _ _ _ _ _ He). }
  rewrite List.Forall_forall in Hlater.
  split.
  - intros j err out Hin. specialize (Hlater _ Hin). simpl in Hlater. lia.
  - intros j err out Hle Hin. specialize (Hlater _ Hin). simpl in Hlater. lia.
Qed.

Lemma C4_example_handler_before_failure :
  (forall j err out,
      In (EvHandler j err out) [EvHandler 2 Examples.errE (Return (VStr "recovered"))] ->
      position (EvTransform 1 (VNum 42) (Throw Examples.errE)) <= j)
  /\ (forall j err out,
         S j <= position (EvTransform 1 (VNum 42) (Throw Examples.errE)) ->
         ~ In (EvHandler j err out)
             [EvHandler 2 Examples.errE (Return (VStr "recovered"))]).
Proof.
  exact (C4_only_later_handlers_are_called_after_a_failure
           Examples.handlerBeforeFailure [] [] (Return (VStr "recovered"))
           [EvSeed (Return (VNum 42))]
           [EvHandler 2 Examples.errE (Return (VStr "recovered"))]
           (EvTransform 1 (VNum 42) (Throw Examples.errE))
           (or_introl eq_refl) eq_refl).
Defined.

(** ** Passthrough of handlers on failure-free executions *)

Lemma walk_failure_free aw ops : forall i j s h s' h' t,
  ToBoolean (error s) = false ->
  walk aw i ops s h = (s', h', t) ->
  Forall (fun ev => failed ev = false) t ->
  ToBoolean (error s') = false
  /\ Forall (fun ev => isHandlerCall ev = false) t
  /\ exists t',
       walk aw j (List.filter (fun op => negb (isErrorHandler op)) ops) s h = (s', h', t')
       /\ List.map callOf t' = List.map callOf t.
Proof.
  induction ops as [|op ops IH]; intros i j s h s' h' t Hnone Hw Hok; simpl in Hw.
  - inversion Hw; subst. split; [assumption|]. split; [constructor|].
    exists []. split; reflexivity.
  - unfold step in Hw. rewrite Hnone in Hw. destruct op as [f|hd]; simpl.
    + destruct (f (result s) h) as [o h1] eqn:Hf.
      destruct (walk aw (S i) ops (assign s (settle aw o)) h1) as [[s2 h2] t2] eqn:Hr.
      inversion Hw; subst. simpl in Hok.
      inversion Hok as [|? ? Hev Hok2]; subst.
      unfold failed in Hev; simpl in Hev.
      destruct (settle aw o) as [v|e] eqn:Hso; [|discriminate].
      destruct (IH (S i) (S j) (assign s (Return v)) h1 s' h' t2 Hnone Hr Hok2)
        as [He [Hh [t' [Hw' Hc]]]].
      split; [assumption|]. split; [constructor; [reflexivity|assumption]|].
      unfold step. rewrite Hnone, Hf, Hso, Hw'.
      eexists; split; [reflexivity|]. simpl. rewrite Hc. reflexivity.
    + destruct (walk aw (S i) ops s h) as [[s2 h2] t2] eqn:Hr.
      inversion Hw; subst. simpl in Hok.
      destruct (IH (S i) j _ _ _ _ _ Hnone Hr Hok) as [He [Hh [t' [Hw' Hc]]]].
      split; [assumption|]. split; [assumption|].
      exists t'. split; assumption.
Qed.

(** C5.  If no call of [run] fails (the execution never enters the error
    state), no handler is called, and [run] on the pipeline with every
    [ErrorHandler] step removed gives the same result, the same heap and
    the same calls. *)
Theorem C5_handlers_are_inert_on_failure_free_runs
    (this : Gluify) (h h' : heap) (o : outcome value) (t : list event) :
  run this h = (o, h', t) ->
  Forall (fun ev => failed ev = false) t ->
  Forall (fun ev => isHandlerCall ev = false) t
  /\ exists t',
       run (withoutHandlers this) h = (o, h', t')
       /\ List.map callOf t' = List.map callOf t.
Proof.
  unfold run, exec, withoutHandlers, createNext, start; simpl.
  intros Hrun Hok.
  destruct (isLazy this), (lazyInitializer this) as [init|];
    try (destruct (walk noAwait 0 (operations this) (mkState (initialValue this) VNull) h)
           as [[s1 h1] t1] eqn:Hw;
         inversion Hrun; subst; simpl in Hok;
         destruct (walk_failure_free _ _ 0 0 (mkState (initialValue this) VNull)
                     _ _ _ _ eq_refl Hw Hok)
           as [He [Hh [t' [Hw' Hc]]]];
         split; [assumption|]; rewrite Hw';
         exists t'; split; [reflexivity|assumption]).
  destruct (init h) as [o0 h0].
  destruct (walk noAwait 0 (operations this)
              (assign (mkState VUndefined VNull) (settle noAwait o0)) h0)
    as [[s1 h1] t1] eqn:Hw.
  inversion Hrun; subst. simpl in Hok.
  inversion Hok as [|? ? Hev Hok2]; subst.
  unfold failed in Hev; simpl in Hev.
  destruct (settle noAwait o0) as [v|e] eqn:Hso; [|discriminate].
  simpl in Hw |- *.
  destruct (walk_failure_free _ _ 0 0 (mkState v VNull) _ _ _ _ eq_refl Hw Hok2)
    as [He [Hh [t' [Hw' Hc]]]].
  split; [constructor; [reflexivity|assumption]|].
  rewrite Hw'. eexists; split; [reflexivity|]. simpl. rewrite Hc. reflexivity.
Qed.

Lemma C5_example_never_fails :
  Forall (fun ev => isHandlerCall ev = false)
    [EvSeed (Return (VNum 42)); EvTransform 0 (VNum 42) (Return (VNum 84))]
  /\ exists t',
       run (withoutHandlers Examples.neverFails) [] = (Return (VNum 84), [], t')
       /\ List.map callOf t' =
          List.map callOf
            [EvSeed (Return (VNum 42)); EvTransform 0 (VNum 42) (Return (VNum 84))].
Proof.
  apply (C5_handlers_are_inert_on_failure_free_runs Examples.neverFails [] []).
  - reflexivity.
  - repeat constructor.
Defined.

(** ** The lazy seed producer *)


Lemma settle_noAwait o : settle noAwait o = o.
Proof. destruct o; reflexivity. Qed.





(** ** What appending one step does *)

Lemma exec_snoc aw this d h :
  exec aw (createNext this (operations this ++ [d])) h =
  let '(s0, h0, t0) := start aw this h in
  let '(s1, h1, t1) := walk aw 0 (operations this) s0 h0 in
  let '(s2, h2, t2) := step aw (length (operations this)) d s1 h1 in
  (finish s2, h2, t0 ++ t1 ++ t2).
Proof.
  unfold exec; simpl.
  change (start aw (createNext this (operations this ++ [d])) h) with (start aw this h).
  destruct (start aw this h) as [[s0 h0] t0]. rewrite walk_app.
  destruct (walk aw 0 (operations this) s0 h0) as [[s1 h1] t1]. simpl.
  destruct (step aw (length (operations this)) d s1 h1) as [[s2 h2] t2].
  rewrite app_nil_r. reflexivity.
Qed.

Lemma prefixRun_all aw this h :
  prefixRun aw this (length (operations this)) h =
  let '(s0, h0, t0) := start aw this h in
  let '(s1, h1, t1) := walk aw 0 (operations this) s0 h0 in
  (s1, h1, t0 ++ t1).
Proof. unfold prefixRun. rewrite firstn_all. reflexivity. Qed.

Lemma prefixRun_snoc aw this d h :
  prefixRun aw (createNext this (operations this ++ [d]))
    (S (length (operations this))) h =
  let '(s1, h1, t1) := prefixRun aw this (length (operations this)) h in
  let '(s2, h2, t2) := step aw (length (operations this)) d s1 h1 in
  (s2, h2, t1 ++ t2).
Proof.
  rewrite prefixRun_all. unfold prefixRun; simpl.
  change (start aw (createNext this (operations this ++ [d])) h) with (start aw this h).
  destruct (start aw this h) as [[s0 h0] t0].
  rewrite take_ge by (rewrite length_app; simpl; lia). rewrite walk_app.
  destruct (walk aw 0 (operations this) s0 h0) as [[s1 h1] t1]. simpl.
  destruct (step aw (length (operations this)) d s1 h1) as [[s2 h2] t2].
  rewrite app_nil_r, app_assoc. reflexivity.
Qed.

Lemma exec_snoc_prefix aw this d h :
  exec aw (createNext this (operations this ++ [d])) h =
  let '(s1, h1, t1) := prefixRun aw this (length (operations this)) h in
  let '(s2, h2, t2) := step aw (length (operations this)) d s1 h1 in
  (finish s2, h2, t1 ++ t2).
Proof.
  rewrite exec_snoc, prefixRun_all.
  destruct (start aw this h) as [[s0 h0] t0].
  destruct (walk aw 0 (operations this) s0 h0) as [[s1 h1] t1].
  destruct (step aw (length (operations this)) d s1 h1) as [[s2 h2] t2].
  rewrite app_assoc. reflexivity.
Qed.

Lemma run_prefix this h s h1 t :
  prefixRun noAwait this (length (operations this)) h = (s, h1, t) ->
  run this h = (finish s, h1, t).
Proof. intros Hp. unfold run. rewrite exec_prefixRun, Hp. reflexivity. Qed.

(** From what [run] ends with to the locals it ends in. *)
Lemma run_returns this h v h1 t :
  run this h = (Return v, h1, t) ->
  exists s, prefixRun noAwait this (length (operations this)) h = (s, h1, t)
            /\ ToBoolean (error s) = false /\ result s = v.
Proof.
  unfold run. rewrite exec_prefixRun.
  destruct (prefixRun noAwait this (length (operations this)) h) as [[s h'] t'].
  unfold finish. destruct (ToBoolean (error s)) eqn:He; intros Heq; inversion Heq; subst.
  exists s. repeat split; assumption.
Qed.

Lemma run_throws this h e h1 t :
  run this h = (Throw e, h1, t) ->
  exists s, prefixRun noAwait this (length (operations this)) h = (s, h1, t)
            /\ ToBoolean (error s) = true /\ error s = e.
Proof.
  unfold run. rewrite exec_prefixRun.
  destruct (prefixRun noAwait this (length (operations this)) h) as [[s h'] t'].
  unfold finish. destruct (ToBoolean (error s)) eqn:He; intros Heq; inversion Heq; subst.
  exists s. repeat split; assumption.
Qed.

Lemma run_snoc_transform this f h o h1 t :
  run this h = (o, h1, t) ->
  run (createNext this (operations this ++ [Transform f])) h =
  match o with
  | Return v =>
      let '(o', h2) := f v h1 in
      (ending v o', h2, t ++ [EvTransform (length (operations this)) v o'])
  | Throw e => (Throw e, h1, t)
  end.
Proof.
  intros Hrun. unfold run at 1. rewrite exec_snoc_prefix. destruct o as [v|e].
  - destruct (run_returns _ _ _ _ _ Hrun) as [s [-> [He <-]]].
    unfold step. rewrite He. destruct (f (result s) h1) as [[v'|e'] h2]; simpl.
    + unfold finish; simpl. rewrite He. reflexivity.
    + unfold finish; simpl. destruct (ToBoolean e'); reflexivity.
  - destruct (run_throws _ _ _ _ _ Hrun) as [s [-> [He <-]]].
    unfold step. rewrite He. unfold finish. rewrite He, app_nil_r. reflexivity.
Qed.

(** ** [tap] *)

Lemma await_plain v : instanceofPromise v = false -> await v = Return v.
Proof. destruct v; simpl; intros; try reflexivity; discriminate. Qed.

Lemma tap_step_run i fn s h :
  result (fst (fst (step noAwait i (tap_operation fn) s h))) = result s.
Proof.
  unfold step, tap_operation, bind, ret.
  destruct (ToBoolean (error s)); [reflexivity|].
  destruct (fn (result s) h) as [[x|e] h1]; reflexivity.
Qed.

Lemma tap_step_runAsync i fn s h :
  instanceofPromise (result s) = false ->
  result (fst (fst (step await i (tap_operation fn) s h))) = result s.
Proof.
  intros Hp. unfold step, tap_operation, bind, ret.
  destruct (ToBoolean (error s)); [reflexivity|].
  destruct (fn (result s) h) as [[x|e] h1]; simpl; [|reflexivity].
  rewrite (await_plain _ Hp). reflexivity.
Qed.

Lemma tap_step_fails_like_pipe aw i fn s h e h2 :
  fn (result s) h = (Throw e, h2) ->
  step aw i (tap_operation fn) s h =
  step aw i (pipe_operation (fun v _ => fn v) []) s h.
Proof.
  intros Hf. unfold step, tap_operation, pipe_operation, bind, ret.
  destruct (ToBoolean (error s)); [reflexivity|]. rewrite Hf. reflexivity.
Qed.

(** C8 (amended).  Under [run], for every pipeline, the value after a
    [tap(fn)] step is the value before it, whatever [fn] returns or throws;
    so [this.tap(fn).run()] returns what [this.run()] returns when [fn]
    returns.  Under [runAsync] the same holds whenever the value reaching
    the step is not a promise.  When [fn] throws, [this.tap(fn)] runs
    exactly as [this.pipe(fn)] does under both executors, and a truthy
    failure puts the walk in the error state with that failure. *)
Theorem C8_tap_keeps_the_value_and_fails_like_a_transform
    (this : Gluify) (fn : Callback) (h : heap) :
  (forall s h1 t,
      prefixRun noAwait this (length (operations this)) h = (s, h1, t) ->
      exists s' h2 t',
        prefixRun noAwait (after this (Methods.tap fn))
          (S (length (operations this))) h = (s', h2, t')
        /\ result s' = result s)
  /\ (forall v x h1 h2 t,
         run this h = (Return v, h1, t) ->
         fn v h1 = (Return x, h2) ->
         run (after this (Methods.tap fn)) h =
           (Return v, h2, t ++ [EvTransform (length (operations this)) v (Return v)]))
  /\ (forall s h1 t,
         prefixRun await this (length (operations this)) h = (s, h1, t) ->
         instanceofPromise (result s) = false ->
         exists s' h2 t',
           prefixRun await (after this (Methods.tap fn))
             (S (length (operations this))) h = (s', h2, t')
           /\ result s' = result s)
  /\ (forall s h1 t e h2,
         prefixRun noAwait this (length (operations this)) h = (s, h1, t) ->
         fn (result s) h1 = (Throw e, h2) ->
         run (after this (Methods.tap fn)) h =
           run (after this (Methods.pipe (fun v _ => fn v) [])) h
         /\ (ToBoolean (error s) = false -> ToBoolean e = true ->
             prefixRun noAwait (after this (Methods.tap fn))
               (S (length (operations this))) h =
               (mkState (result s) e, h2,
                t ++ [EvTransform (length (operations this)) (result s) (Throw e)])
             /\ run (after this (Methods.tap fn)) h =
                  (Throw e, h2,
                   t ++ [EvTransform (length (operations this)) (result s) (Throw e)])))
  /\ (forall s h1 t e h2,
         prefixRun await this (length (operations this)) h = (s, h1, t) ->
         fn (result s) h1 = (Throw e, h2) ->
         runAsync (after this (Methods.tap fn)) h =
           runAsync (after this (Methods.pipe (fun v _ => fn v) [])) h).
Proof.
  change (after this (Methods.tap fn))
    with (createNext this (operations this ++ [tap_operation fn])).
  change (after this (Methods.pipe (fun v _ => fn v) []))
    with (createNext this (operations this ++ [pipe_operation (fun v _ => fn v) []])).
  split; [|split; [|split; [|split]]].
  - intros s h1 t Hp. rewrite prefixRun_snoc, Hp.
    pose proof (tap_step_run (length (operations this)) fn s h1) as Hk.
    destruct (step noAwait (length (operations this)) (tap_operation fn) s h1)
      as [[s' h2] t2].
    exists s', h2, (t ++ t2). split; [reflexivity|exact Hk].
  - intros v x h1 h2 t Hrun Hf.
    pose proof (run_snoc_transform this (fun value => let* _ := fn value in ret value)
                  h _ h1 t Hrun) as H.
    fold (tap_operation fn) in H. rewrite H. unfold bind, ret. rewrite Hf. reflexivity.
  - intros s h1 t Hp Hplain. rewrite prefixRun_snoc, Hp.
    pose proof (tap_step_runAsync (length (operations this)) fn s h1 Hplain) as Hk.
    destruct (step await (length (operations this)) (tap_operation fn) s h1)
      as [[s' h2] t2].
    exists s', h2, (t ++ t2). split; [reflexivity|exact Hk].
  - intros s h1 t e h2 Hp Hf. split.
    + unfold run. rewrite !exec_snoc_prefix, Hp.
      rewrite (tap_step_fails_like_pipe _ _ _ _ _ _ _ Hf). reflexivity.
    + intros Hs He.
      assert (Hstep : step noAwait (length (operations this)) (tap_operation fn) s h1 =
                      (mkState (result s) e, h2,
                       [EvTransform (length (operations this)) (result s) (Throw e)])).
      { unfold step, tap_operation, bind, ret. rewrite Hs, Hf. reflexivity. }
      split.
      * rewrite prefixRun_snoc, Hp, Hstep. reflexivity.
      * unfold run. rewrite exec_snoc_prefix, Hp, Hstep.
        unfold finish; simpl. rewrite He. reflexivity.
  - intros s h1 t e h2 Hp Hf. unfold runAsync. rewrite !exec_snoc_prefix, Hp.
    rewrite (tap_step_fails_like_pipe _ _ _ _ _ _ _ Hf). reflexivity.
Qed.

Lemma C8_example_tap_ignored :
  run (after (gluify (Examples.producing (VNum 5)) [])
         (Methods.tap (fun _ => ret (VStr "ignored")))) [] =
    (Return (VNum 5), [],
     [EvSeed (Return (VNum 5))] ++ [EvTransform 0 (VNum 5) (Return (VNum 5))])
  /\ (run (after (gluify (Examples.producing (VNum 5)) [])
              (Methods.tap (fun _ => throw Examples.errE))) [] =
        run (after (gluify (Examples.producing (VNum 5)) [])
               (Methods.pipe (fun v _ => throw Examples.errE) [])) []
      /\ run (after (gluify (Examples.producing (VNum 5)) [])
                 (Methods.tap (fun _ => throw Examples.errE))) [] =
           (Throw Examples.errE, [],
            [EvSeed (Return (VNum 5))]
            ++ [EvTransform 0 (VNum 5) (Throw Examples.errE)])).
Proof.
  split.
  - exact (proj1 (proj2 (C8_tap_keeps_the_value_and_fails_like_a_transform
                           (gluify (Examples.producing (VNum 5)) [])
                           (fun _ => ret (VStr "ignored")) []))
             (VNum 5) (VStr "ignored") [] [] [EvSeed (Return (VNum 5))]
             eq_refl eq_refl).
  - destruct (proj1 (proj2 (proj2 (proj2
                (C8_tap_keeps_the_value_and_fails_like_a_transform
                   (gluify (Examples.producing (VNum 5)) [])
                   (fun _ => throw Examples.errE) []))))
                (mkState (VNum 5) VNull) [] [EvSeed (Return (VNum 5))]
                Examples.errE [] eq_refl eq_refl) as [Ha Hb].
    split; [exact Ha|]. exact (proj2 (Hb eq_refl eq_refl)).
Defined.

(** C8 as stated fails under [runAsync] on a pipeline whose seed is a
    concrete promise: the executor awaits what the [tap] step returns, so the
    value after the step is the settled [5] and no longer the promise, and
    the step that follows sees the difference. *)
Lemma C8_tap_settles_a_promise_seed_under_runAsync :
  fst (fst (prefixRun await Examples.eagerPromise 0 [])) =
    mkState (VResolved (VNum 5)) VNull
  /\ fst (fst (prefixRun await
                 (after Examples.eagerPromise (Methods.tap (fun _ => ret VUndefined)))
                 1 [])) = mkState (VNum 5) VNull
  /\ fst (fst (runAsync MoreExamples.tapThenTest [])) = Return (VBool false)
  /\ fst (fst (runAsync Examples.eagerPromisePlain [])) = Return (VBool true).
Proof. repeat split. Qed.

(** ** [pipeAsync] against [pipe] under [runAsync] *)

Lemma await_not_promise v : forall x, await v = Return x -> instanceofPromise x = false.
Proof.
  induction v; intros x Hx; simpl in Hx;
    try (inversion Hx; subst; reflexivity); auto; discriminate.
Qed.

Lemma await_promiseOf o : await (promiseOf o) = settle await o.
Proof. destruct o; reflexivity. Qed.

Lemma assign_await_plain s o :
  instanceofPromise (result s) = false ->
  instanceofPromise (result (assign s (settle await o))) = false.
Proof.
  intros Hs. destruct o as [v|e]; simpl; [|assumption].
  destruct (await v) as [x|e] eqn:Hx; simpl; [|assumption].
  exact (await_not_promise _ _ Hx).
Qed.

Lemma assignHandled_await_plain s o :
  instanceofPromise (result s) = false ->
  instanceofPromise (result (assignHandled s (settle await o))) = false.
Proof.
  intros Hs. destruct o as [v|e]; simpl; [|assumption].
  destruct (await v) as [x|e] eqn:Hx; simpl; [|assumption].
  exact (await_not_promise _ _ Hx).
Qed.

Lemma step_await_plain i op s h s' h' t :
  instanceofPromise (result s) = false ->
  step await i op s h = (s', h', t) ->
  instanceofPromise (result s') = false.
Proof.
  unfold step. intros Hs Hstep.
  destruct (ToBoolean (error s)); destruct op as [f|hd];
    try (inversion Hstep; subst; assumption).
  - destruct (hd (error s) h) as [o h1]. inversion Hstep; subst.
    apply assignHandled_await_plain. assumption.
  - destruct (f (result s) h) as [o h1]. inversion Hstep; subst.
    apply assign_await_plain. assumption.
Qed.

Lemma walk_await_plain ops : forall i s h s' h' t,
  instanceofPromise (result s) = false ->
  walk await i ops s h = (s', h', t) ->
  instanceofPromise (result s') = false.
Proof.
  induction ops as [|op ops IH]; intros i s h s' h' t Hs Hw; simpl in Hw.
  - inversion Hw; subst. assumption.
  - destruct (step await i op s h) as [[s1 h1] t1] eqn:Hstep.
    destruct (walk await (S i) ops s1 h1) as [[s2 h2] t2] eqn:Hr.
    inversion Hw; subst. eapply IH; [|exact Hr].
    eapply step_await_plain; eassumption.
Qed.

Lemma start_await_plain this h s0 h0 t0 :
  seedNotDeferred this ->
  start await this h = (s0, h0, t0) ->
  instanceofPromise (result s0) = false.
Proof.
  unfold seedNotDeferred, start. intros Hseed Hstart.
  destruct (isLazy this) eqn:Hl; destruct (lazyInitializer this) as [init|] eqn:Hi.
  - destruct (init h) as [o h1]. inversion Hstart; subst.
    apply assign_await_plain. reflexivity.
  - inversion Hstart; subst; simpl. destruct Hseed as [[_ Hn]|Hp]; [congruence|assumption].
  - inversion Hstart; subst; simpl. destruct Hseed as [[Hn _]|Hp]; [discriminate|assumption].
  - inversion Hstart; subst; simpl. destruct Hseed as [[Hn _]|Hp]; [discriminate|assumption].
Qed.






(** ** [sort] and [reverse] work on a copy *)

Lemma spreadArray_array `{Natives} r l (h : heap) :
  h !! r = Some (Arr l) ->
  spreadArray (VArr r) h = (Return (VArr (length h)), h ++ [Arr l]).
Proof.
  intros Hr. unfold spreadArray, bind, elementsOf, alloc, ret. rewrite Hr. reflexivity.
Qed.

Lemma lookup_fresh (h : heap) c : (h ++ [c]) !! length h = Some c.
Proof. rewrite lookup_app_r by lia. rewrite Nat.sub_diag. reflexivity. Qed.

Lemma insert_fresh (h : heap) c c' : <[length h := c']> (h ++ [c]) = h ++ [c'].
Proof.
  rewrite insert_app_r_alt by lia. rewrite Nat.sub_diag. reflexivity.
Qed.

Lemma reverse_copies `{Natives} r l (h : heap) :
  h !! r = Some (Arr l) ->
  callOperation reverse_operation (VArr r) h =
    (Return (VArr (length h)), h ++ [Arr (rev l)]).
Proof.
  intros Hr. unfold callOperation, reverse_operation, bind.
  rewrite (spreadArray_array _ _ _ Hr). unfold reverseInPlace.
  rewrite lookup_fresh, insert_fresh. reflexivity.
Qed.

Lemma sort_copies `{Natives} compareFn r l (h : heap) :
  h !! r = Some (Arr l) ->
  callOperation (sort_operation compareFn) (VArr r) h =
    match Array_sort_order compareFn l with
    | Return l' => (Return (VArr (length h)), h ++ [Arr l'])
    | Throw e => (Throw e, h ++ [Arr l])
    end.
Proof.
  intros Hr. unfold callOperation, sort_operation, bind.
  rewrite (spreadArray_array _ _ _ Hr). unfold sortInPlace.
  rewrite lookup_fresh. destruct (Array_sort_order compareFn l) as [l'|e].
  - rewrite insert_fresh. reflexivity.
  - reflexivity.
Qed.

Lemma copy_frame (h : heap) c r l :
  h !! r = Some (Arr l) ->
  (h ++ [Arr c]) !! r = Some (Arr l)
  /\ (forall r0 c0, h !! r0 = Some c0 -> (h ++ [Arr c]) !! r0 = Some c0).
Proof.
  intros Hr. split.
  - rewrite lookup_app_l; [exact Hr|]. eapply lookup_lt_Some; exact Hr.
  - intros r0 c0 Hr0. rewrite lookup_app_l; [exact Hr0|].
    eapply lookup_lt_Some; exact Hr0.
Qed.

(** C10.  When [this.run()] returns an array [r] with elements [l]:
    [this.reverse().run()] and [this.sort(compareFn).run()] return the
    reference [length h1], which is not allocated in the heap [h1] that
    [this.run()] leaves and is not [r]; it holds the reversed (sorted)
    elements, and every object of [h1], the input array included, is as it
    was.  The input is untouched also when the comparator makes [sort]
    throw.  The same is said of the two operations themselves. *)
Theorem C10_sort_and_reverse_return_a_fresh_array_and_keep_their_input
    `{Natives} (this : Gluify) (compareFn : option Comparator) (r : nat)
    (l : list value) (h h1 : heap) (t : list event) :
  run this h = (Return (VArr r), h1, t) ->
  h1 !! r = Some (Arr l) ->
  run (after this Methods.reverse) h =
    (Return (VArr (length h1)), h1 ++ [Arr (rev l)],
     t ++ [EvTransform (length (operations this)) (VArr r)
             (Return (VArr (length h1)))])
  /\ (forall l', Array_sort_order compareFn l = Return l' ->
        run (after this (Methods.sort compareFn)) h =
          (Return (VArr (length h1)), h1 ++ [Arr l'],
           t ++ [EvTransform (length (operations this)) (VArr r)
                   (Return (VArr (length h1)))]))
  /\ h1 !! length h1 = None
  /\ length h1 <> r
  /\ (h1 ++ [Arr (rev l)]) !! r = Some (Arr l)
  /\ (forall m o h' t',
         m = Methods.reverse \/ m = Methods.sort compareFn ->
         run (after this m) h = (o, h', t') ->
         h' !! r = Some (Arr l)
         /\ (forall r0 c, h1 !! r0 = Some c -> h' !! r0 = Some c))
  /\ callOperation reverse_operation (VArr r) h1 =
       (Return (VArr (length h1)), h1 ++ [Arr (rev l)])
  /\ (forall l', Array_sort_order compareFn l = Return l' ->
        callOperation (sort_operation compareFn) (VArr r) h1 =
          (Return (VArr (length h1)), h1 ++ [Arr l']))
  /\ (forall op o h',
         op = reverse_operation \/ op = sort_operation compareFn ->
         callOperation op (VArr r) h1 = (o, h') ->
         h' !! r = Some (Arr l)
         /\ (forall r0 c, h1 !! r0 = Some c -> h' !! r0 = Some c)
         /\ (forall v, o = Return v ->
               v = VArr (length h1) /\ exists l', h' !! length h1 = Some (Arr l'))).
Proof.
  intros Hrun Hr.
  assert (Hlt : r < length h1) by (eapply lookup_lt_Some; exact Hr).
  pose proof (run_snoc_transform this
                (fun arr => let* copy := spreadArray arr in reverseInPlace copy)
                h _ h1 t Hrun) as Hrev.
  fold reverse_operation in Hrev. cbv beta iota in Hrev.
  pose proof (reverse_copies r l h1 Hr) as Hc1. simpl in Hc1. rewrite Hc1 in Hrev.
  pose proof (run_snoc_transform this
                (fun arr => let* copy := spreadArray arr in sortInPlace compareFn copy)
                h _ h1 t Hrun) as Hsort.
  fold (sort_operation compareFn) in Hsort. cbv beta iota in Hsort.
  pose proof (sort_copies compareFn r l h1 Hr) as Hc2. simpl in Hc2.
  rewrite Hc2 in Hsort.
  change (after this Methods.reverse)
    with (createNext this (operations this ++ [reverse_operation])).
  change (after this (Methods.sort compareFn))
    with (createNext this (operations this ++ [sort_operation compareFn])).
  split; [exact Hrev|].
  split.
  { intros l' Hs. rewrite Hs in Hsort. exact Hsort. }
  split; [apply lookup_ge_None; lia|].
  split; [lia|].
  split; [exact (proj1 (copy_frame h1 (rev l) r l Hr))|].
  split.
  { intros m o h' t' Hm Hcall. destruct Hm as [->| ->].
    - change (after this Methods.reverse)
        with (createNext this (operations this ++ [reverse_operation])) in Hcall.
      rewrite Hrev in Hcall. inversion Hcall; subst.
      exact (copy_frame h1 (rev l) r l Hr).
    - change (after this (Methods.sort compareFn))
        with (createNext this (operations this ++ [sort_operation compareFn])) in Hcall.
      rewrite Hsort in Hcall.
      destruct (Array_sort_order compareFn l) as [l'|e]; inversion Hcall; subst.
      + exact (copy_frame h1 l' r l Hr).
      + exact (copy_frame h1 l r l Hr). }
  split; [exact (reverse_copies r l h1 Hr)|].
  split.
  { intros l' Hs. rewrite (sort_copies compareFn r l h1 Hr), Hs. reflexivity. }
  intros op o h' Hop Hcall.
  assert (Hshape : exists c, h' = h1 ++ [Arr c]
                             /\ forall v, o = Return v -> v = VArr (length h1)).
  { destruct Hop as [->| ->].
    - rewrite (reverse_copies r l h1 Hr) in Hcall. inversion Hcall; subst.
      exists (rev l). split; [reflexivity|]. intros v Hv. inversion Hv. reflexivity.
    - rewrite (sort_copies compareFn r l h1 Hr) in Hcall.
      destruct (Array_sort_order compareFn l) as [l'|e]; inversion Hcall; subst.
      + exists l'. split; [reflexivity|]. intros v Hv. inversion Hv. reflexivity.
      + exists l. split; [reflexivity|]. intros v Hv. discriminate. }
  destruct Hshape as [c [-> Hret]].
  destruct (copy_frame h1 c r l Hr) as [Hin Hframe].
  split; [exact Hin|]. split; [exact Hframe|].
  intros v Hv. split; [exact (Hret v Hv)|].
  exists c. apply lookup_fresh.
Qed.

Lemma C10_example_sort_numbers :
  run (after MoreExamples.eagerArray (@Methods.reverse Examples.sampleNatives))
      [Arr [VNum 3; VNum 1; VNum 2]] =
    (Return (VArr 1),
     [Arr [VNum 3; VNum 1; VNum 2]] ++ [Arr (rev [VNum 3; VNum 1; VNum 2])],
     [] ++ [EvTransform 0 (VArr 0) (Return (VArr 1))])
  /\ run (after MoreExamples.eagerArray
            (@Methods.sort Examples.sampleNatives (Some Examples.ascending)))
       [Arr [VNum 3; VNum 1; VNum 2]] =
     (Return (VArr 1),
      [Arr [VNum 3; VNum 1; VNum 2]] ++ [Arr [VNum 1; VNum 2; VNum 3]],
      [] ++ [EvTransform 0 (VArr 0) (Return (VArr 1))])
  /\ ([Arr [VNum 3; VNum 1; VNum 2]] ++ [Arr (rev [VNum 3; VNum 1; VNum 2])]) !! 0
     = Some (Arr [VNum 3; VNum 1; VNum 2]).
Proof.
  destruct (@C10_sort_and_reverse_return_a_fresh_array_and_keep_their_input
              Examples.sampleNatives MoreExamples.eagerArray (Some Examples.ascending) 0
              [VNum 3; VNum 1; VNum 2] [Arr [VNum 3; VNum 1; VNum 2]]
              [Arr [VNum 3; VNum 1; VNum 2]] [] eq_refl eq_refl)
    as [Hrev [Hsort [_ [_ [Hkeep _]]]]].
  split; [exact Hrev|]. split; [|exact Hkeep].
  exact (Hsort [VNum 1; VNum 2; VNum 3] eq_refl).
Defined.

(** ** Builders *)

Lemma invoke_appends `{Natives} (b : Builder) (this : Gluify) (h : heap) :
  exists d,
    invoke b this h =
      (mkGluify (initialValue this) (operations this ++ [d])
         (isLazy this) (lazyInitializer this),
       this, h, []).
Proof. destruct b; eexists; reflexivity. Qed.

Lemma build_appends `{Natives} (bs : list Builder) : forall (this : Gluify) (h : heap),
  exists ds,
    build bs this h =
      (mkGluify (initialValue this) (operations this ++ ds)
         (isLazy this) (lazyInitializer this), h, [])
    /\ length ds = length bs.
Proof.
  induction bs as [|b bs IH]; intros this h; simpl.
  - exists []. rewrite app_nil_r. destruct this; split; reflexivity.
  - destruct (invoke_appends b this h) as [d ->].
    destruct (IH (mkGluify (initialValue this) (operations this ++ [d])
                    (isLazy this) (lazyInitializer this)) h) as [ds [-> Hlen]].
    simpl. exists (d :: ds). rewrite <- app_assoc. simpl.
    split; [reflexivity|]. rewrite Hlen. reflexivity.
Qed.

(** C6.  Every builder method, called on [this] in heap [h], makes no call,
    leaves [this] and the heap as they were, and returns a pipeline with the
    seed of [this] and the steps of [this] followed by one descriptor.  So a
    chain of builder calls on [gluify(fn, ...args)] makes no call either: the
    pipeline it returns still holds the producer, unevaluated, and one
    descriptor per builder call. *)
Theorem C6_builders_append_one_descriptor_and_make_no_call
    `{Natives} (b : Builder) (bs : list Builder) (this : Gluify) (h : heap)
    (fn : list value -> M value) (args : list value) :
  (exists d,
      invoke b this h =
        (mkGluify (initialValue this) (operations this ++ [d])
           (isLazy this) (lazyInitializer this),
         this, h, []))
  /\ (exists ds,
         build bs (gluify fn args) h = (mkGluify VUndefined ds true (Some (fn args)), h, [])
         /\ length ds = length bs).
Proof.
  split; [apply invoke_appends|].
  destruct (build_appends bs (gluify fn args) h) as [ds [Hb Hlen]].
  exists ds. split; [exact Hb|exact Hlen].
Qed.

(** * Further properties *)

(** ** What appending one step does to [run] *)

Lemma run_snoc_handler this handler h s h1 t :
  prefixRun noAwait this (length (operations this)) h = (s, h1, t) ->
  run (createNext this (operations this ++ [ErrorHandler handler])) h =
  if ToBoolean (error s)
  then let '(o', h2) := handler (error s) h1 in
       (ending (result s) o', h2,
        t ++ [EvHandler (length (operations this)) (error s) o'])
  else (Return (result s), h1, t).
Proof.
  intros Hp. unfold run. rewrite exec_snoc_prefix, Hp. unfold step.
  destruct (ToBoolean (error s)) eqn:He.
  - destruct (handler (error s) h1) as [[v'|e'] h2]; simpl.
    + reflexivity.
    + unfold finish; simpl. destruct (ToBoolean e'); reflexivity.
  - unfold finish. rewrite He, app_nil_r. reflexivity.
Qed.

Lemma run_snoc_handler_returns this handler h v h1 t :
  run this h = (Return v, h1, t) ->
  run (createNext this (operations this ++ [ErrorHandler handler])) h =
    (Return v, h1, t).
Proof.
  intros Hrun. destruct (run_returns _ _ _ _ _ Hrun) as [s [Hp [He <-]]].
  rewrite (run_snoc_handler _ handler _ _ _ _ Hp), He. reflexivity.
Qed.

(** X1.  [this.pipe(fn, ...args).run()], when [this.run()] returns [v]:
    [fn] is applied to [v] with the extra arguments, in the heap
    [this.run()] leaves; the run returns what [fn] returns and throws what
    [fn] throws when that is truthy; a falsy failure of [fn] is not seen by
    [if (error)] and the run returns [v].  When [this.run()] throws, the run
    throws the same failure and [fn] is not called. *)
Theorem X1_pipe_post_composes_run
    (this : Gluify) (fn : PipeFunction) (args : list value)
    (h h1 : heap) (o : outcome value) (t : list event) :
  run this h = (o, h1, t) ->
  run (after this (Methods.pipe fn args)) h =
  match o with
  | Return v =>
      let '(o', h2) := fn v args h1 in
      (ending v o', h2, t ++ [EvTransform (length (operations this)) v o'])
  | Throw e => (Throw e, h1, t)
  end.
Proof. intros Hrun. exact (run_snoc_transform this _ h o h1 t Hrun). Qed.

Lemma X1_example_21 :
  run (after Examples.arithmetic (Methods.pipe MoreExamples.succ [])) [] =
    (Return (VNum 21), [],
     [EvSeed (Return (VNum 5)); EvTransform 0 (VNum 5) (Return (VNum 10));
      EvTransform 1 (VNum 10) (Return (VNum 20))]
     ++ [EvTransform 2 (VNum 20) (Return (VNum 21))]).
Proof.
  exact (X1_pipe_post_composes_run Examples.arithmetic MoreExamples.succ [] [] []
           (Return (VNum 20))
           [EvSeed (Return (VNum 5)); EvTransform 0 (VNum 5) (Return (VNum 10));
            EvTransform 1 (VNum 10) (Return (VNum 20))] eq_refl).
Defined.

(** X2.  With [s] the locals in which the walk of [this] ends:
    [this.run()] throws the stored failure when it is truthy and returns
    the value otherwise.  [this.catch(handler).run()] returns that value,
    the handler not being called, in the second case; in the first it calls
    [handler] with the failure and returns what it returns, throws what it
    throws when that is truthy, and for a falsy failure of the handler
    returns the value computed before the failure. *)
Theorem X2_catch_handles_what_run_throws
    (this : Gluify) (handler : value -> M value)
    (h h1 : heap) (s : state) (t : list event) :
  prefixRun noAwait this (length (operations this)) h = (s, h1, t) ->
  run this h =
    (if ToBoolean (error s) then Throw (error s) else Return (result s), h1, t)
  /\ run (after this (Methods.catch handler)) h =
       if ToBoolean (error s)
       then let '(o', h2) := handler (error s) h1 in
            (ending (result s) o', h2,
             t ++ [EvHandler (length (operations this)) (error s) o'])
       else (Return (result s), h1, t).
Proof.
  intros Hp. split.
  - exact (run_prefix _ _ _ _ _ Hp).
  - exact (run_snoc_handler this handler h s h1 t Hp).
Qed.

Lemma X2_example_caught :
  run MoreExamples.failsThenPipes [] =
    (Throw Examples.errE, [], [EvSeed (Throw Examples.errE)])
  /\ run (after MoreExamples.failsThenPipes
            (Methods.catch (fun e => ret (VStr "caught")))) [] =
       (Return (VStr "caught"), [],
        [EvSeed (Throw Examples.errE)]
        ++ [EvHandler 1 Examples.errE (Return (VStr "caught"))]).
Proof.
  exact (X2_catch_handles_what_run_throws MoreExamples.failsThenPipes
           (fun e => ret (VStr "caught")) [] [] (mkState VUndefined Examples.errE)
           [EvSeed (Throw Examples.errE)] eq_refl).
Defined.

(** X3.  [this.recover(fallbackValue).run()] never throws: it returns what
    [this.run()] returns, and [fallbackValue] when [this.run()] throws; the
    heap is the one [this.run()] leaves. *)
Theorem X3_recover_never_throws
    (this : Gluify) (fallbackValue : value)
    (h h1 : heap) (o : outcome value) (t : list event) :
  run this h = (o, h1, t) ->
  exists t',
    run (after this (Methods.recover fallbackValue)) h =
      (Return (match o with Return v => v | Throw _ => fallbackValue end), h1, t').
Proof.
  intros Hrun.
  change (after this (Methods.recover fallbackValue))
    with (createNext this (operations this ++ [ErrorHandler (fun _ => ret fallbackValue)])).
  destruct o as [v|e].
  - rewrite (run_snoc_handler_returns _ _ _ _ _ _ Hrun). eexists; reflexivity.
  - destruct (run_throws _ _ _ _ _ Hrun) as [s [Hp [He _]]].
    rewrite (run_snoc_handler _ _ _ _ _ _ Hp), He. eexists; reflexivity.
Qed.

Lemma X3_example_recovered :
  exists t',
    run (after MoreExamples.failsThenPipes (Methods.recover (VNum 0))) [] =
      (Return (VNum 0), [], t').
Proof.
  exact (X3_recover_never_throws MoreExamples.failsThenPipes (VNum 0) [] []
           (Throw Examples.errE) [EvSeed (Throw Examples.errE)] eq_refl).
Defined.

(** X4.  [this.when(predicate, fn).run()], when [this.run()] returns [v]:
    a truthy [predicate(v)] gives what [fn(v)] returns, a falsy one gives
    [v] itself in the heap the predicate leaves ([fn] is not run); a truthy
    failure of the predicate or of [fn] is thrown by the run, a falsy one is
    not seen and the run returns [v].  When [this.run()] throws, so does the
    run, with the predicate not called. *)
Theorem X4_when_applies_fn_only_on_a_truthy_predicate
    (this : Gluify) (predicate fn : Callback)
    (h h1 : heap) (o : outcome value) (t : list event) :
  run this h = (o, h1, t) ->
  fst (run (after this (Methods.when predicate fn)) h) =
  match o with
  | Return v =>
      match predicate v h1 with
      | (Return b, h2) =>
          if ToBoolean b
          then let '(o', h3) := fn v h2 in (ending v o', h3)
          else (Return v, h2)
      | (Throw e, h2) => (ending v (Throw e), h2)
      end
  | Throw e => (Throw e, h1)
  end.
Proof.
  intros Hrun.
  change (after this (Methods.when predicate fn))
    with (createNext this (operations this ++ [when_operation predicate fn])).
  unfold when_operation. rewrite (run_snoc_transform this _ h o h1 t Hrun).
  destruct o as [v|e]; [|reflexivity]. unfold bind.
  destruct (predicate v h1) as [[b|e] h2]; [|reflexivity].
  destruct (ToBoolean b).
  - destruct (fn v h2) as [o' h3]. reflexivity.
  - reflexivity.
Qed.

Lemma X4_example_when :
  fst (run (after Examples.arithmetic
              (Methods.when MoreExamples.greaterThanFive MoreExamples.double)) []) =
    (Return (VNum 40), []).
Proof.
  exact (X4_when_applies_fn_only_on_a_truthy_predicate Examples.arithmetic
           MoreExamples.greaterThanFive MoreExamples.double [] []
           (Return (VNum 20))
           [EvSeed (Return (VNum 5)); EvTransform 0 (VNum 5) (Return (VNum 10));
            EvTransform 1 (VNum 10) (Return (VNum 20))] eq_refl).
Defined.

(** ** Propagation *)

(** X5.  When the stored failure is truthy after [n] steps and no
    [ErrorHandler] follows, [run] throws that failure and makes no further
    call: the remaining transforms are not run. *)
Theorem X5_unhandled_failure_stops_the_transforms
    (this : Gluify) (n : nat) (r e : value) (h h1 : heap) (t1 : list event) :
  prefixRun noAwait this n h = (mkState r e, h1, t1) ->
  ToBoolean e = true ->
  Forall (fun op => isErrorHandler op = false) (drop n (operations this)) ->
  run this h = (Throw e, h1, t1).
Proof.
  intros Hp He Hts. unfold run. rewrite (prefixRun_finish _ _ _ _ _ _ _ Hp).
  rewrite walk_skips_transforms by assumption. simpl.
  unfold finish; simpl. rewrite He, app_nil_r. reflexivity.
Qed.

Lemma X5_example_stop :
  run MoreExamples.failsThenPipes [] =
    (Throw Examples.errE, [], [EvSeed (Throw Examples.errE)]).
Proof.
  apply (X5_unhandled_failure_stops_the_transforms
           MoreExamples.failsThenPipes 0 VUndefined Examples.errE [] []
           [EvSeed (Throw Examples.errE)]).
  - reflexivity.
  - reflexivity.
  - repeat constructor.
Defined.

(** X6.  When the stored failure is truthy, the first [ErrorHandler] after
    it returns [v], and only [ErrorHandler] steps follow that one, [run]
    returns [v] and none of the later handlers is called. *)
Theorem X6_first_returning_handler_wins
    (this : Gluify) (n : nat) (r v e : value) (h h1 h2 : heap)
    (t1 : list event) (ts rest : list Operation) (handler : value -> M value) :
  prefixRun noAwait this n h = (mkState r e, h1, t1) ->
  ToBoolean e = true ->
  drop n (operations this) = ts ++ ErrorHandler handler :: rest ->
  Forall (fun op => isErrorHandler op = false) ts ->
  Forall (fun op => isErrorHandler op = true) rest ->
  handler e h1 = (Return v, h2) ->
  run this h = (Return v, h2, t1 ++ [EvHandler (n + length ts) e (Return v)]).
Proof.
  intros Hp He Hd Hts Hrest Hh.
  destruct (handler_search _ _ _ _ _ _ _ _ _ _ _ _ Hp He Hd Hts Hh) as [H1 H2].
  unfold run. rewrite (prefixRun_finish _ _ _ _ _ _ _ H1), H2.
  rewrite walk_skips_handlers by (try assumption; reflexivity).
  simpl. rewrite app_nil_r. reflexivity.
Qed.

Lemma X6_example_first :
  run MoreExamples.firstWins [] =
    (Return (VStr "first"), [],
     [EvSeed (Throw Examples.errE)]
     ++ [EvHandler (0 + 0) Examples.errE (Return (VStr "first"))]).
Proof.
  apply (X6_first_returning_handler_wins MoreExamples.firstWins 0 VUndefined
           (VStr "first") Examples.errE [] [] [] [EvSeed (Throw Examples.errE)]
           [] [catch_operation (fun _ => ret (VStr "second"))]
           (fun _ => ret (VStr "first"))).
  - reflexivity.
  - reflexivity.
  - reflexivity.
  - constructor.
  - repeat constructor.
  - reflexivity.
Defined.

(** ** How many calls an execution makes *)

Lemma step_length aw i op s h s' h' t :
  step aw i op s h = (s', h', t) -> length t <= 1.
Proof.
  intros Hs. destruct (step_positions _ _ _ _ _ _ _ _ Hs) as [->|[ev [-> _]]];
    simpl; lia.
Qed.

Lemma walk_length aw ops : forall i s h s' h' t,
  walk aw i ops s h = (s', h', t) -> length t <= length ops.
Proof.
  induction ops as [|op ops IH]; intros i s h s' h' t Hw; simpl in Hw.
  - inversion Hw; subst. simpl. lia.
  - destruct (step aw i op s h) as [[s1 h1] t1] eqn:Hs.
    destruct (walk aw (S i) ops s1 h1) as [[s2 h2] t2] eqn:Hr.
    inversion Hw; subst. rewrite length_app. simpl.
    pose proof (step_length _ _ _ _ _ _ _ _ Hs). pose proof (IH _ _ _ _ _ _ Hr). lia.
Qed.

Lemma exec_length aw this h o h' t :
  exec aw this h = (o, h', t) -> length t <= S (length (operations this)).
Proof.
  unfold exec. destruct (start aw this h) as [[s0 h0] t0] eqn:Hstart.
  destruct (walk aw 0 (operations this) s0 h0) as [[s1 h1] t1] eqn:Hw.
  intros Heq; inversion Heq; subst. rewrite length_app.
  pose proof (walk_length _ _ _ _ _ _ _ _ Hw).
  assert (length t0 <= 1).
  { unfold start in Hstart.
    destruct (isLazy this), (lazyInitializer this) as [init|];
      try (inversion Hstart; subst; simpl; lia).
    destruct (init h) as [o0 h2]. inversion Hstart; subst. simpl. lia. }
  lia.
Qed.

Lemma sorted_positions_NoDup (l : list nat) : StronglySorted lt l -> List.NoDup l.
Proof.
  induction 1 as [|a l Hs IH Hall]; constructor; [|assumption].
  intros Hin. rewrite List.Forall_forall in Hall. specialize (Hall _ Hin). lia.
Qed.

(** X7.  In one execution, under [run] as under [runAsync], the seed
    producer and each step are called at most once: no two calls of the
    trace sit at the same position, and there are at most as many calls as
    there are steps, plus one for the producer. *)
Theorem X7_each_step_is_called_at_most_once
    (this : Gluify) (h : heap) :
  List.NoDup (List.map position (snd (run this h)))
  /\ length (snd (run this h)) <= S (length (operations this))
  /\ List.NoDup (List.map position (snd (runAsync this h)))
  /\ length (snd (runAsync this h)) <= S (length (operations this)).
Proof.
  assert (Hgen : forall aw,
             List.NoDup (List.map position (snd (exec aw this h)))
             /\ length (snd (exec aw this h)) <= S (length (operations this))).
  { intros aw. destruct (exec aw this h) as [[o h'] t] eqn:He. simpl. split.
    - apply sorted_positions_NoDup. exact (exec_positions _ _ _ _ _ _ He).
    - exact (exec_length _ _ _ _ _ _ He). }
  destruct (Hgen noAwait) as [H1 H2]. destruct (Hgen await) as [H3 H4].
  unfold run, runAsync. destruct (exec await this h) as [[o h'] t].
  repeat split; assumption.
Qed.

(** ** [runAsync] against [run] *)

Lemma settle_await_not_promise o v :
  settle await o = Return v -> instanceofPromise v = false.
Proof.
  destruct o as [x|e]; simpl; [|discriminate]. apply await_not_promise.
Qed.

(** X8.  Whatever the pipeline, the value [runAsync] resolves to is never a
    promise. *)
Theorem X8_runAsync_never_resolves_to_a_promise
    (this : Gluify) (h h' : heap) (v : value) (t : list event) :
  runAsync this h = (Return v, h', t) ->
  instanceofPromise v = false.
Proof.
  unfold runAsync. destruct (exec await this h) as [[o h1] t1].
  intros Heq; inversion Heq as [[Ho Hh Ht]].
  exact (settle_await_not_promise _ _ Ho).
Qed.

Lemma X8_example_eager_promise :
  instanceofPromise (VNum 5) = false.
Proof.
  exact (X8_runAsync_never_resolves_to_a_promise Examples.eagerPromise [] []
           (VNum 5) [] eq_refl).
Defined.

Lemma settle_await_plain o : plainOutcome o -> settle await o = o.
Proof.
  destruct o as [v|e]; simpl; [|reflexivity]. apply await_plain.
Qed.

Lemma assign_plain s o :
  instanceofPromise (result s) = false -> plainOutcome o ->
  instanceofPromise (result (assign s o)) = false.
Proof. destruct o; simpl; auto. Qed.

Lemma assignHandled_plain s o :
  instanceofPromise (result s) = false -> plainOutcome o ->
  instanceofPromise (result (assignHandled s o)) = false.
Proof. destruct o; simpl; auto. Qed.

Lemma walk_plain ops : forall i s h s' h' t,
  instanceofPromise (result s) = false ->
  walk noAwait i ops s h = (s', h', t) ->
  Forall (fun ev => plainOutcome (outcomeOf ev)) t ->
  walk await i ops s h = (s', h', t) /\ instanceofPromise (result s') = false.
Proof.
  induction ops as [|op ops IH]; intros i s h s' h' t Hs Hw Hplain; simpl in *.
  - inversion Hw; subst. split; [reflexivity|assumption].
  - unfold step in *. destruct (ToBoolean (error s)) eqn:He; destruct op as [f|hd].
    + destruct (walk noAwait (S i) ops s h) as [[s2 h2] t2] eqn:Hr.
      inversion Hw; subst. simpl in Hplain.
      destruct (IH _ _ _ _ _ _ Hs Hr Hplain) as [Hw' Hres]. rewrite Hw'.
      split; [reflexivity|assumption].
    + destruct (hd (error s) h) as [o h1].
      destruct (walk noAwait (S i) ops (assignHandled s (settle noAwait o)) h1)
        as [[s2 h2] t2] eqn:Hr.
      inversion Hw; subst. simpl in Hplain.
      inversion Hplain as [|? ? Hev Hplain2]; subst. simpl in Hev.
      rewrite settle_noAwait in *. rewrite (settle_await_plain _ Hev).
      destruct (IH _ _ _ _ _ _ (assignHandled_plain _ _ Hs Hev) Hr Hplain2)
        as [Hw' Hres].
      rewrite Hw'. split; [reflexivity|assumption].
    + destruct (f (result s) h) as [o h1].
      destruct (walk noAwait (S i) ops (assign s (settle noAwait o)) h1)
        as [[s2 h2] t2] eqn:Hr.
      inversion Hw; subst. simpl in Hplain.
      inversion Hplain as [|? ? Hev Hplain2]; subst. simpl in Hev.
      rewrite settle_noAwait in *. rewrite (settle_await_plain _ Hev).
      destruct (IH _ _ _ _ _ _ (assign_plain _ _ Hs Hev) Hr Hplain2) as [Hw' Hres].
      rewrite Hw'. split; [reflexivity|assumption].
    + destruct (walk noAwait (S i) ops s h) as [[s2 h2] t2] eqn:Hr.
      inversion Hw; subst. simpl in Hplain.
      destruct (IH _ _ _ _ _ _ Hs Hr Hplain) as [Hw' Hres]. rewrite Hw'.
      split; [reflexivity|assumption].
Qed.

(** X9.  When no call of [run] hands back a promise and the seed is not a
    concrete promise, [runAsync] settles exactly as [run] ends: same value
    or failure, same heap, same calls. *)
Theorem X9_runAsync_agrees_with_run_on_promise_free_runs
    (this : Gluify) (h h' : heap) (o : outcome value) (t : list event) :
  seedNotDeferred this ->
  run this h = (o, h', t) ->
  Forall (fun ev => plainOutcome (outcomeOf ev)) t ->
  runAsync this h = (o, h', t).
Proof.
  intros Hseed Hrun Hplain. unfold run, runAsync, exec in *.
  assert (Hstart : exists s0 h0 t0,
             start noAwait this h = (s0, h0, t0) /\ start await this h = (s0, h0, t0)
             /\ instanceofPromise (result s0) = false).
  { unfold start in *. unfold seedNotDeferred in Hseed.
    destruct (isLazy this) eqn:Hl; destruct (lazyInitializer this) as [init|] eqn:Hi.
    - destruct (init h) as [o0 h0].
      destruct (walk noAwait 0 (operations this)
                  (assign (mkState VUndefined VNull) (settle noAwait o0)) h0)
        as [[s1 h1] t1] eqn:Hw.
      inversion Hrun; subst. simpl in Hplain.
      inversion Hplain as [|? ? Hev _]; subst. simpl in Hev.
      rewrite settle_noAwait in *. rewrite (settle_await_plain _ Hev).
      eexists _, _, _. split; [reflexivity|]. split; [reflexivity|].
      apply assign_plain; [reflexivity|assumption].
    - eexists _, _, _. split; [reflexivity|]. split; [reflexivity|].
      simpl. destruct Hseed as [[_ Hn]|Hp]; [congruence|assumption].
    - eexists _, _, _. split; [reflexivity|]. split; [reflexivity|].
      simpl. destruct Hseed as [[Hn _]|Hp]; [discriminate|assumption].
    - eexists _, _, _. split; [reflexivity|]. split; [reflexivity|].
      simpl. destruct Hseed as [[Hn _]|Hp]; [discriminate|assumption]. }
  destruct Hstart as [s0 [h0 [t0 [Hs1 [Hs2 Hs0]]]]].
  rewrite Hs1 in Hrun. rewrite Hs2.
  destruct (walk noAwait 0 (operations this) s0 h0) as [[s1 h1] t1] eqn:Hw.
  inversion Hrun; subst.
  apply Forall_app in Hplain. destruct Hplain as [_ Hplain1].
  destruct (walk_plain _ _ _ _ _ _ _ Hs0 Hw Hplain1) as [Hw' Hres].
  rewrite Hw'. unfold finish. destruct (ToBoolean (error s1)); simpl; [reflexivity|].
  rewrite (await_plain _ Hres). reflexivity.
Qed.

Lemma X9_example_arithmetic :
  runAsync Examples.arithmetic [] =
    (Return (VNum 20), [],
     [EvSeed (Return (VNum 5)); EvTransform 0 (VNum 5) (Return (VNum 10));
      EvTransform 1 (VNum 10) (Return (VNum 20))]).
Proof.
  apply (X9_runAsync_agrees_with_run_on_promise_free_runs Examples.arithmetic [] []).
  - left. split; [reflexivity|discriminate].
  - reflexivity.
  - repeat constructor.
Defined.

(** ** An async-aware step under the synchronous executor *)

(** X10.  Under [run], a [pipeAsync(fn)] step never fails: when
    [this.run()] returns [v], [this.pipeAsync(fn).run()] returns a promise,
    which for a [v] that is not a promise is the promise of [fn(v)] (rejected
    when [fn] throws); a [catch] placed after the step is not invoked. *)
Theorem X10_pipeAsync_under_run_returns_a_promise_and_never_throws
    (this : Gluify) (fn : PipeFunction) (args : list value)
    (h h1 : heap) (v : value) (t : list event) :
  run this h = (Return v, h1, t) ->
  exists p h2 t',
    run (after this (Methods.pipeAsync fn args)) h = (Return p, h2, t')
    /\ instanceofPromise p = true
    /\ (instanceofPromise v = false ->
        p = promiseOf (fst (fn v args h1)) /\ h2 = snd (fn v args h1))
    /\ (forall handler,
          run (after (after this (Methods.pipeAsync fn args)) (Methods.catch handler)) h
          = (Return p, h2, t')).
Proof.
  intros Hrun.
  change (after this (Methods.pipeAsync fn args))
    with (createNext this (operations this ++ [pipeAsync_operation fn args])).
  pose proof (run_snoc_transform this
                (fun value h =>
                   match (if instanceofPromise value then await value
                          else Return value) with
                   | Return resolvedValue =>
                       let '(o, h') := fn resolvedValue args h in
                       (Return (promiseOf o), h')
                   | Throw e => (Return (VRejected e), h)
                   end) h _ h1 t Hrun) as Hext.
  fold (pipeAsync_operation fn args) in Hext. cbv beta iota in Hext.
  assert (Hp : forall p, instanceofPromise (promiseOf p) = true)
    by (intros [?|?]; reflexivity).
  revert Hext. destruct (instanceofPromise v) eqn:Hv.
  - destruct (await v) as [x|e] eqn:Hx.
    + destruct (fn x args h1) as [o h2] eqn:Hf. intros Hext.
      eexists _, _, _. split; [exact Hext|]. split; [apply Hp|].
      split; [discriminate|].
      intros handler. exact (run_snoc_handler_returns _ handler h _ _ _ Hext).
    + intros Hext. eexists _, _, _. split; [exact Hext|]. split; [reflexivity|].
      split; [discriminate|].
      intros handler. exact (run_snoc_handler_returns _ handler h _ _ _ Hext).
  - destruct (fn v args h1) as [o h2] eqn:Hf. intros Hext.
    eexists _, _, _. split; [exact Hext|]. split; [apply Hp|].
    split; [intros _; split; reflexivity|].
    intros handler. exact (run_snoc_handler_returns _ handler h _ _ _ Hext).
Qed.

Lemma X10_example_rejected :
  exists p h2 t',
    run (after Examples.arithmetic
           (Methods.pipeAsync (fun _ _ => throw Examples.errE) [])) []
      = (Return p, h2, t')
    /\ instanceofPromise p = true
    /\ (instanceofPromise (VNum 20) = false ->
        p = promiseOf (fst (throw (A:=value) Examples.errE []))
        /\ h2 = snd (throw (A:=value) Examples.errE []))
    /\ (forall handler,
          run (after (after Examples.arithmetic
                       (Methods.pipeAsync (fun _ _ => throw Examples.errE) []))
                 (Methods.catch handler)) []
          = (Return p, h2, t')).
Proof.
  exact (X10_pipeAsync_under_run_returns_a_promise_and_never_throws
           Examples.arithmetic (fun _ _ => throw Examples.errE) [] [] [] (VNum 20)
           [EvSeed (Return (VNum 5)); EvTransform 0 (VNum 5) (Return (VNum 10));
            EvTransform 1 (VNum 10) (Return (VNum 20))] eq_refl).
Defined.

(** X11.  [this.pipeAsync(fn).runAsync()], for every pipeline, concrete
    promise seeds included: when [this.runAsync()] resolves to [v], [fn] is
    applied to [v] and its result awaited; the run resolves to what that
    gives, rejects with its failure when that is truthy, and resolves to
    [v] when that failure is falsy (it is not seen by [if (error)]).  When
    [this.runAsync()] rejects, so does the run, with the same failure. *)
Theorem X11_pipeAsync_post_composes_runAsync
    (this : Gluify) (fn : PipeFunction) (args : list value)
    (h h1 : heap) (o : outcome value) (t : list event) :
  runAsync this h = (o, h1, t) ->
  fst (runAsync (after this (Methods.pipeAsync fn args)) h) =
  match o with
  | Return v => let '(o', h2) := fn v args h1 in (ending v (settle await o'), h2)
  | Throw e => (Throw e, h1)
  end.
Proof.
  change (after this (Methods.pipeAsync fn args))
    with (createNext this (operations this ++ [pipeAsync_operation fn args])).
  unfold runAsync. rewrite exec_snoc. unfold exec.
  destruct (start await this h) as [[s0 h0] t0].
  destruct (walk await 0 (operations this) s0 h0) as [[s1 h1'] t1].
  intros Heq; inversion Heq; subst. clear Heq.
  unfold step, finish, pipeAsync_operation.
  destruct s1 as [r e]; simpl.
  destruct (ToBoolean e) eqn:He; simpl; [rewrite He; reflexivity|].
  assert (Haw : (if instanceofPromise r then await r else Return r) = await r).
  { destruct (instanceofPromise r) eqn:Hr; [reflexivity|].
    symmetry. apply await_plain. exact Hr. }
  rewrite Haw. destruct (await r) as [x|e'] eqn:Hx; simpl.
  - destruct (fn x args h1) as [o' h2]. simpl. rewrite await_promiseOf.
    destruct (settle await o') as [y|e''] eqn:Hy; simpl.
    + rewrite He. simpl. rewrite (await_plain _ (settle_await_not_promise _ _ Hy)).
      reflexivity.
    + destruct (ToBoolean e''); simpl; [reflexivity|]. rewrite Hx. reflexivity.
  - destruct (ToBoolean e'); simpl; [reflexivity|]. rewrite Hx. reflexivity.
Qed.

Lemma X11_example_eager_promise :
  fst (runAsync (after Examples.eagerPromise
                   (Methods.pipeAsync MoreExamples.succ [])) []) =
    (Return (VNum 6), []).
Proof.
  exact (X11_pipeAsync_post_composes_runAsync Examples.eagerPromise
           MoreExamples.succ [] [] [] (Return (VNum 5)) [] eq_refl).
Defined.

(** ** Derived pipelines *)

(** X12.  A pipeline derived from [this] by any chain of builder calls
    starts as [this] does: once it has walked the steps it shares with
    [this], its value, pending failure, heap and calls are those with which
    the execution of [this] ends, under both executors; so what [this.run()]
    calls is a prefix of what the derived pipeline calls. *)
Theorem X12_a_derived_pipeline_replays_its_parent
    `{Natives} (bs : list Builder) (this : Gluify) (hb h : heap)
    (aw : value -> outcome value) :
  prefixRun aw (fst (fst (build bs this hb))) (length (operations this)) h =
    prefixRun aw this (length (operations this)) h
  /\ exists t2, snd (run (fst (fst (build bs this hb))) h) = snd (run this h) ++ t2.
Proof.
  destruct (build_appends bs this hb) as [ds [Hb _]]. rewrite Hb. simpl.
  split.
  - unfold prefixRun; simpl.
    change (start aw (mkGluify (initialValue this) (operations this ++ ds)
                       (isLazy this) (lazyInitializer this)) h)
      with (start aw this h).
    rewrite take_app_length, firstn_all. reflexivity.
  - unfold run, exec; simpl.
    change (start noAwait (mkGluify (initialValue this) (operations this ++ ds)
                            (isLazy this) (lazyInitializer this)) h)
      with (start noAwait this h).
    destruct (start noAwait this h) as [[s0 h0] t0]. rewrite walk_app.
    destruct (walk noAwait 0 (operations this) s0 h0) as [[s1 h1] t1].
    destruct (walk noAwait (0 + length (operations this)) ds s1 h1) as [[s2 h2] t2].
    exists t2. simpl. rewrite app_assoc. reflexivity.
Qed.

(** ** Arrays *)

(** X13.  Reversing twice gives the elements back in their order: when
    [this.run()] returns an array with elements [l],
    [this.reverse().reverse().run()] returns a new array, different from the
    input and from the intermediate one, whose elements are [l]; the input
    array still holds [l]. *)
Theorem X13_reverse_twice_restores_the_order
    `{Natives} (this : Gluify) (h h1 : heap) (r : nat) (l : list value)
    (t : list event) :
  run this h = (Return (VArr r), h1, t) ->
  h1 !! r = Some (Arr l) ->
  exists t',
    run (after (after this Methods.reverse) Methods.reverse) h =
      (Return (VArr (S (length h1))), h1 ++ [Arr (rev l); Arr l], t')
    /\ (h1 ++ [Arr (rev l); Arr l]) !! r = Some (Arr l)
    /\ (h1 ++ [Arr (rev l); Arr l]) !! S (length h1) = Some (Arr l)
    /\ r < length h1.
Proof.
  intros Hrun Hr.
  assert (Hlt : r < length h1) by (eapply lookup_lt_Some; exact Hr).
  change (after this Methods.reverse)
    with (createNext this (operations this ++ [reverse_operation])).
  pose proof (run_snoc_transform this
                (fun arr => let* copy := spreadArray arr in reverseInPlace copy)
                h _ h1 t Hrun) as H1.
  fold reverse_operation in H1. cbv beta iota in H1.
  pose proof (reverse_copies r l h1 Hr) as Hc1. simpl in Hc1. rewrite Hc1 in H1.
  cbn [ending] in H1.
  set (mid := createNext this (operations this ++ [reverse_operation])) in *.
  change (after mid Methods.reverse)
    with (createNext mid (operations mid ++ [reverse_operation])).
  pose proof (run_snoc_transform mid
                (fun arr => let* copy := spreadArray arr in reverseInPlace copy)
                h _ _ _ H1) as H2.
  fold reverse_operation in H2. cbv beta iota in H2.
  pose proof (reverse_copies (length h1) (rev l) (h1 ++ [Arr (rev l)])
                (lookup_fresh h1 (Arr (rev l)))) as Hc2.
  simpl in Hc2. rewrite Hc2 in H2. cbn [ending] in H2.
  rewrite rev_involutive, length_app, <- app_assoc in H2. simpl in H2.
  rewrite Nat.add_1_r in H2.
  eexists. split; [exact H2|]. split; [|split; [|exact Hlt]].
  - rewrite lookup_app_l by lia. exact Hr.
  - rewrite lookup_app_r by lia.
    replace (S (length h1) - length h1) with 1 by lia. reflexivity.
Qed.

Lemma X13_example_reverse_twice :
  exists t',
    run (after (after MoreExamples.eagerArray (@Methods.reverse Examples.sampleNatives))
           (@Methods.reverse Examples.sampleNatives)) [Arr [VNum 3; VNum 1; VNum 2]] =
      (Return (VArr 2),
       [Arr [VNum 3; VNum 1; VNum 2]]
       ++ [Arr (rev [VNum 3; VNum 1; VNum 2]); Arr [VNum 3; VNum 1; VNum 2]], t')
    /\ ([Arr [VNum 3; VNum 1; VNum 2]]
        ++ [Arr (rev [VNum 3; VNum 1; VNum 2]); Arr [VNum 3; VNum 1; VNum 2]]) !! 0
       = Some (Arr [VNum 3; VNum 1; VNum 2])
    /\ ([Arr [VNum 3; VNum 1; VNum 2]]
        ++ [Arr (rev [VNum 3; VNum 1; VNum 2]); Arr [VNum 3; VNum 1; VNum 2]]) !! 2
       = Some (Arr [VNum 3; VNum 1; VNum 2])
    /\ 0 < 1.
Proof.
  exact (@X13_reverse_twice_restores_the_order Examples.sampleNatives
           MoreExamples.eagerArray [Arr [VNum 3; VNum 1; VNum 2]]
           [Arr [VNum 3; VNum 1; VNum 2]] 0 [VNum 3; VNum 1; VNum 2] []
           eq_refl eq_refl).
Defined.

(** X14.  [clone] is shallow: on an array it returns a new array holding
    the same elements (a nested array is shared, not copied) and leaves the
    input as it was; on [undefined], [null], a boolean, a number or a string
    it returns the value itself and allocates nothing.  So
    [this.clone().run()] returns such a new array when [this.run()] returns
    the array. *)
Theorem X14_clone_copies_an_array_one_level_deep
    `{Natives} (r : nat) (l : list value) (h : heap) :
  h !! r = Some (Arr l) ->
  callOperation clone_operation (VArr r) h =
    (Return (VArr (length h)), h ++ [Arr l])
  /\ length h <> r
  /\ (h ++ [Arr l]) !! r = Some (Arr l)
  /\ (forall v,
        match v with
        | VUndefined | VNull | VBool _ | VNum _ | VStr _ => True
        | _ => False
        end ->
        callOperation clone_operation v h = (Return v, h))
  /\ (forall this h0 t,
        run this h0 = (Return (VArr r), h, t) ->
        run (after this Methods.clone) h0 =
          (Return (VArr (length h)), h ++ [Arr l],
           t ++ [EvTransform (length (operations this)) (VArr r)
                   (Return (VArr (length h)))])).
Proof.
  intros Hr.
  assert (Hlt : r < length h) by (eapply lookup_lt_Some; exact Hr).
  split; [exact (spreadArray_array r l h Hr)|].
  split; [lia|]. split; [rewrite lookup_app_l by lia; exact Hr|].
  split.
  - intros v Hv. destruct v; simpl in Hv; try contradiction; reflexivity.
  - intros this h0 t Hrun.
    change (after this Methods.clone)
      with (createNext this (operations this ++ [clone_operation])).
    pose proof (run_snoc_transform this (callOperation clone_operation)
                  h0 _ h t Hrun) as Hext.
    cbv beta iota in Hext.
    pose proof (spreadArray_array r l h Hr) as Hc.
    change (spreadArray (VArr r) h)
      with (callOperation clone_operation (VArr r) h) in Hc.
    rewrite Hc in Hext. exact Hext.
Qed.

Lemma X14_example_clone :
  callOperation (@clone_operation Examples.sampleNatives) (VArr 1)
      [Arr [VNum 1]; Arr [VArr 0; VNum 2]] =
    (Return (VArr 2), [Arr [VNum 1]; Arr [VArr 0; VNum 2]] ++ [Arr [VArr 0; VNum 2]])
  /\ 2 <> 1
  /\ ([Arr [VNum 1]; Arr [VArr 0; VNum 2]] ++ [Arr [VArr 0; VNum 2]]) !! 1
     = Some (Arr [VArr 0; VNum 2])
  /\ (forall v,
        match v with
        | VUndefined | VNull | VBool _ | VNum _ | VStr _ => True
        | _ => False
        end ->
        callOperation (@clone_operation Examples.sampleNatives) v
          [Arr [VNum 1]; Arr [VArr 0; VNum 2]]
        = (Return v, [Arr [VNum 1]; Arr [VArr 0; VNum 2]]))
  /\ run (after (mkGluify (VArr 1) [] false None)
            (@Methods.clone Examples.sampleNatives))
       [Arr [VNum 1]; Arr [VArr 0; VNum 2]] =
     (Return (VArr 2), [Arr [VNum 1]; Arr [VArr 0; VNum 2]] ++ [Arr [VArr 0; VNum 2]],
      [] ++ [EvTransform 0 (VArr 1) (Return (VArr 2))]).
Proof.
  destruct (@X14_clone_copies_an_array_one_level_deep Examples.sampleNatives 1
              [VArr 0; VNum 2] [Arr [VNum 1]; Arr [VArr 0; VNum 2]] eq_refl)
    as [Ha [Hb [Hc [Hd He]]]].
  split; [exact Ha|]. split; [exact Hb|]. split; [exact Hc|]. split; [exact Hd|].
  exact (He (mkGluify (VArr 1) [] false None) [Arr [VNum 1]; Arr [VArr 0; VNum 2]] []
            eq_refl).
Defined.

(** ** Objects *)

Lemma getProp_setProp k k' v ps :
  getProp k (setProp k' v ps) = if String.eqb k k' then Some v else getProp k ps.
Proof.
  induction ps as [|[k0 v0] ps IH]; simpl.
  - reflexivity.
  - destruct (String.eqb_spec k' k0) as [->|Hne]; simpl.
    + destruct (String.eqb k k0); reflexivity.
    + rewrite IH. destruct (String.eqb_spec k k0) as [->|Hne'].
      * destruct (String.eqb_spec k0 k') as [->|_]; [contradiction|reflexivity].
      * reflexivity.
Qed.

Lemma getProp_deleteProp k k' ps :
  getProp k (deleteProp k' ps) = if String.eqb k k' then None else getProp k ps.
Proof.
  unfold deleteProp. induction ps as [|[k0 v0] ps IH]; simpl.
  - destruct (String.eqb k k'); reflexivity.
  - destruct (String.eqb_spec k' k0) as [->|Hne]; simpl.
    + rewrite IH. destruct (String.eqb k k0); reflexivity.
    + rewrite IH. destruct (String.eqb_spec k k0) as [->|Hne'].
      * destruct (String.eqb_spec k0 k') as [->|_]; [contradiction|reflexivity].
      * reflexivity.
Qed.

Lemma getProp_absent k ps : ~ In k (List.map fst ps) -> getProp k ps = None.
Proof.
  induction ps as [|[k0 v0] ps IH]; simpl; intros Hn; [reflexivity|].
  destruct (String.eqb_spec k k0) as [->|_]; [tauto|]. apply IH. tauto.
Qed.

Lemma getProp_spread own : forall acc k,
  List.NoDup (List.map fst own) ->
  getProp k (fold_left (fun ps kv => setProp (fst kv) (snd kv) ps) own acc) =
  match getProp k own with
  | Some v => Some v
  | None => getProp k acc
  end.
Proof.
  induction own as [|[k0 v0] own IH]; intros acc k Hnd; simpl; [reflexivity|].
  inversion Hnd as [|? ? Hnotin Hnd']; subst.
  rewrite IH by assumption. rewrite getProp_setProp.
  destruct (String.eqb_spec k k0) as [->|_]; [|reflexivity].
  rewrite (getProp_absent _ _ Hnotin). reflexivity.
Qed.

Lemma getProp_omitted keys : forall ps k,
  getProp k (fold_left (fun ps key => deleteProp key ps) keys ps) =
  if existsb (String.eqb k) keys then None else getProp k ps.
Proof.
  induction keys as [|key keys IH]; intros ps k; simpl; [reflexivity|].
  rewrite IH, getProp_deleteProp.
  destruct (String.eqb k key), (existsb (String.eqb k) keys); reflexivity.
Qed.

Lemma omitLoop_fresh keys : forall (h : heap) ps,
  omitLoop (length h) keys (h ++ [Obj ps]) =
  (Return tt, h ++ [Obj (fold_left (fun ps key => deleteProp key ps) keys ps)]).
Proof.
  induction keys as [|key keys IH]; intros h ps; simpl; [reflexivity|].
  unfold bind, removeProp. rewrite lookup_fresh, insert_fresh. apply IH.
Qed.

Lemma spreadObject_one `{Natives} obj own (h : heap) :
  ownEnumerable obj h = (Return own, h) ->
  spreadObject [obj] h =
  (Return (VObj (length h)),
   h ++ [Obj (fold_left (fun ps kv => setProp (fst kv) (snd kv) ps) own [])]).
Proof.
  intros Ho. unfold spreadObject, bind, ret, alloc; simpl. rewrite Ho. reflexivity.
Qed.

Lemma spreadObject_two `{Natives} a b p1 p2 (h : heap) :
  ownEnumerable a h = (Return p1, h) ->
  ownEnumerable b h = (Return p2, h) ->
  spreadObject [a; b] h =
  (Return (VObj (length h)),
   h ++ [Obj (fold_left (fun ps kv => setProp (fst kv) (snd kv) ps) p2
                (fold_left (fun ps kv => setProp (fst kv) (snd kv) ps) p1 []))]).
Proof.
  intros Ha Hb. unfold spreadObject, bind, ret, alloc; simpl.
  rewrite Ha, Hb. reflexivity.
Qed.

(** X15.  On an object whose own enumerable properties are [own], the
    operation of [omit(...keys)] returns a new object and leaves the heap it
    found as it was; the new object has no property named in [keys] and has
    every other property of [own] with its value.  So
    [this.omit(...keys).run()] returns that object when [this.run()] returns
    the source. *)
Theorem X15_omit_drops_the_listed_keys_and_keeps_the_rest
    `{Natives} (keys : list string) (obj : value) (own : list (string * value))
    (h : heap) :
  ownEnumerable obj h = (Return own, h) ->
  List.NoDup (List.map fst own) ->
  exists ps,
    callOperation (omit_operation keys) obj h =
      (Return (VObj (length h)), h ++ [Obj ps])
    /\ (forall k, getProp k ps =
                  if existsb (String.eqb k) keys then None else getProp k own)
    /\ (forall this h0 t,
          run this h0 = (Return obj, h, t) ->
          run (after this (Methods.omit keys)) h0 =
            (Return (VObj (length h)), h ++ [Obj ps],
             t ++ [EvTransform (length (operations this)) obj
                     (Return (VObj (length h)))])).
Proof.
  intros Ho Hnd.
  exists (fold_left (fun ps key => deleteProp key ps) keys
            (fold_left (fun ps kv => setProp (fst kv) (snd kv) ps) own [])).
  assert (Hop : callOperation (omit_operation keys) obj h =
                (Return (VObj (length h)),
                 h ++ [Obj (fold_left (fun ps key => deleteProp key ps) keys
                              (fold_left (fun ps kv => setProp (fst kv) (snd kv) ps)
                                 own []))])).
  { unfold callOperation, omit_operation, bind.
    rewrite (spreadObject_one obj own h Ho), omitLoop_fresh. reflexivity. }
  split; [exact Hop|]. split.
  - intros k. rewrite getProp_omitted, (getProp_spread own [] k Hnd).
    destruct (existsb (String.eqb k) keys); [reflexivity|].
    destruct (getProp k own); reflexivity.
  - intros this h0 t Hrun.
    change (after this (Methods.omit keys))
      with (createNext this (operations this ++ [omit_operation keys])).
    pose proof (run_snoc_transform this (callOperation (omit_operation keys))
                  h0 _ h t Hrun) as Hext.
    cbv beta iota in Hext. rewrite Hop in Hext. exact Hext.
Qed.

Lemma X15_example_omit_password :
  exists ps,
    callOperation (@omit_operation MoreExamples.objectNatives ["password"%string])
        (VObj 0) [Obj MoreExamples.user] =
      (Return (VObj 1), [Obj MoreExamples.user] ++ [Obj ps])
    /\ (forall k, getProp k ps =
                  if existsb (String.eqb k) ["password"%string] then None
                  else getProp k MoreExamples.user)
    /\ run (after MoreExamples.eagerUser
              (@Methods.omit MoreExamples.objectNatives ["password"%string]))
         [Obj MoreExamples.user] =
       (Return (VObj 1), [Obj MoreExamples.user] ++ [Obj ps],
        [] ++ [EvTransform 0 (VObj 0) (Return (VObj 1))]).
Proof.
  assert (Hnd : List.NoDup (List.map fst MoreExamples.user)).
  { repeat constructor; simpl; intuition discriminate. }
  destruct (@X15_omit_drops_the_listed_keys_and_keeps_the_rest
              MoreExamples.objectNatives ["password"%string] (VObj 0) MoreExamples.user
              [Obj MoreExamples.user] eq_refl Hnd) as [ps [Ha [Hb Hc]]].
  exists ps. split; [exact Ha|]. split; [exact Hb|].
  exact (Hc MoreExamples.eagerUser [Obj MoreExamples.user] [] eq_refl).
Defined.

(** X16.  [this.merge(other).run()], when [this.run()] returns an object
    with own enumerable properties [p1] and [other] has [p2]: the result is
    a new object in which a key of [p2] has the value [other] gives it,
    and any other key has the value it has in [p1]; both objects are left as
    they were. *)
Theorem X16_merge_lets_the_other_object_win
    `{Natives} (this : Gluify) (obj other : value) (p1 p2 : list (string * value))
    (h h1 : heap) (t : list event) :
  run this h = (Return obj, h1, t) ->
  ownEnumerable obj h1 = (Return p1, h1) ->
  ownEnumerable other h1 = (Return p2, h1) ->
  List.NoDup (List.map fst p1) ->
  List.NoDup (List.map fst p2) ->
  exists ps t',
    run (after this (Methods.merge other)) h =
      (Return (VObj (length h1)), h1 ++ [Obj ps], t')
    /\ forall k, getProp k ps =
                 match getProp k p2 with
                 | Some v => Some v
                 | None => getProp k p1
                 end.
Proof.
  intros Hrun Ha Hb Hn1 Hn2.
  change (after this (Methods.merge other))
    with (createNext this (operations this
                             ++ [Transform (fun o => spreadObject [o; other])])).
  rewrite (run_snoc_transform this _ h _ h1 t Hrun).
  rewrite (spreadObject_two obj other p1 p2 h1 Ha Hb).
  eexists _, _. split; [reflexivity|].
  intros k. rewrite (getProp_spread p2 _ k Hn2), (getProp_spread p1 [] k Hn1).
  destruct (getProp k p2); [reflexivity|]. destruct (getProp k p1); reflexivity.
Qed.

Lemma X16_example_merge_patch :
  exists ps t',
    run (after MoreExamples.eagerUser (@Methods.merge MoreExamples.objectNatives (VObj 1)))
        [Obj MoreExamples.user; Obj MoreExamples.patch] =
      (Return (VObj 2), [Obj MoreExamples.user; Obj MoreExamples.patch] ++ [Obj ps], t')
    /\ forall k, getProp k ps =
                 match getProp k MoreExamples.patch with
                 | Some v => Some v
                 | None => getProp k MoreExamples.user
                 end.
Proof.
  apply (@X16_merge_lets_the_other_object_win MoreExamples.objectNatives
           MoreExamples.eagerUser (VObj 0) (VObj 1) MoreExamples.user MoreExamples.patch
           [Obj MoreExamples.user; Obj MoreExamples.patch]
           [Obj MoreExamples.user; Obj MoreExamples.patch] []).
  - reflexivity.
  - reflexivity.
  - reflexivity.
  - repeat constructor; simpl; intuition discriminate.
  - repeat constructor; simpl; intuition discriminate.
Defined.

(** ** Nullish values *)

(** X17.  [defaultTo] and [isNil] look at returned values only: when
    [this.run()] returns [v], [this.defaultTo(d).run()] returns [d] for
    [undefined] and [null] and [v] otherwise, and [this.isNil().run()]
    returns whether [v] is [undefined] or [null]; when [this.run()] throws,
    both throw the same failure (neither recovers it). *)
Theorem X17_defaultTo_and_isNil_do_not_recover_failures
    (this : Gluify) (d : value) (h h1 : heap) (o : outcome value) (t : list event) :
  run this h = (o, h1, t) ->
  fst (run (after this (Methods.defaultTo d)) h) =
    (match o with
     | Return v => Return (if isNullish v then d else v)
     | Throw e => Throw e
     end, h1)
  /\ fst (run (after this Methods.isNil) h) =
       (match o with
        | Return v => Return (VBool (isNullish v))
        | Throw e => Throw e
        end, h1).
Proof.
  intros Hrun. split.
  - change (after this (Methods.defaultTo d))
      with (createNext this
              (operations this
                 ++ [Transform (fun v => ret (if isNullish v then d else v))])).
    rewrite (run_snoc_transform this _ h o h1 t Hrun). destruct o; reflexivity.
  - change (after this Methods.isNil)
      with (createNext this
              (operations this ++ [Transform (fun v => ret (VBool (isNullish v)))])).
    rewrite (run_snoc_transform this _ h o h1 t Hrun). destruct o; reflexivity.
Qed.

Lemma X17_example_failure_passes_defaultTo :
  fst (run (after MoreExamples.failsThenPipes (Methods.defaultTo (VNum 0))) []) =
    (Throw Examples.errE, [])
  /\ fst (run (after MoreExamples.failsThenPipes Methods.isNil) []) =
       (Throw Examples.errE, []).
Proof.
  exact (X17_defaultTo_and_isNil_do_not_recover_failures MoreExamples.failsThenPipes
           (VNum 0) [] [] (Throw Examples.errE) [EvSeed (Throw Examples.errE)] eq_refl).
Defined.

(** ** Appending one step, under [runAsync] *)

Lemma runAsync_end this h s h1 t :
  seedNotDeferred this ->
  prefixRun await this (length (operations this)) h = (s, h1, t) ->
  instanceofPromise (result s) = false.
Proof.
  intros Hseed. rewrite prefixRun_all.
  destruct (start await this h) as [[s0 h0] t0] eqn:Hstart.
  destruct (walk await 0 (operations this) s0 h0) as [[s1 h1'] t1] eqn:Hw.
  intros Heq; inversion Heq; subst.
  eapply walk_await_plain; [|exact Hw].
  exact (start_await_plain _ _ _ _ _ Hseed Hstart).
Qed.

Lemma ending_settled stale o :
  instanceofPromise stale = false ->
  settle await (ending stale (settle await o)) = ending stale (settle await o).
Proof.
  intros Hs. destruct (settle await o) as [y|e] eqn:Hy; simpl.
  - apply await_plain. exact (settle_await_not_promise _ _ Hy).
  - destruct (ToBoolean e); simpl; [reflexivity|]. apply await_plain. exact Hs.
Qed.

Lemma finish_assign s o :
  ToBoolean (error s) = false -> finish (assign s o) = ending (result s) o.
Proof.
  intros He. destruct o as [v|e]; unfold finish; simpl.
  - rewrite He. reflexivity.
  - reflexivity.
Qed.

Lemma finish_assignHandled s o : finish (assignHandled s o) = ending (result s) o.
Proof. destruct o as [v|e]; reflexivity. Qed.

(** X18.  For a pipeline whose seed is a lazy producer or a concrete value
    that is not a promise, with [s] the locals in which its walk under
    [runAsync] ends: [this.runAsync()] rejects with the stored failure when
    it is truthy and resolves to the value otherwise.
    [this.pipe(fn).runAsync()] rejects alike in the first case and otherwise
    applies [fn] to the value and awaits the result;
    [this.catch(handler).runAsync()] resolves alike in the second case and
    otherwise awaits [handler] of the failure, so a handler returning a
    rejected promise fails.  In both, a failure that is falsy is not seen
    and the value computed before it is resolved. *)
Theorem X18_pipe_and_catch_post_compose_runAsync
    (this : Gluify) (fn : PipeFunction) (args : list value)
    (handler : value -> M value)
    (h h1 : heap) (s : state) (t : list event) :
  seedNotDeferred this ->
  prefixRun await this (length (operations this)) h = (s, h1, t) ->
  runAsync this h =
    (if ToBoolean (error s) then Throw (error s) else Return (result s), h1, t)
  /\ runAsync (after this (Methods.pipe fn args)) h =
       (if ToBoolean (error s)
        then (Throw (error s), h1, t)
        else let '(o', h2) := fn (result s) args h1 in
             (ending (result s) (settle await o'), h2,
              t ++ [EvTransform (length (operations this)) (result s)
                      (settle await o')]))
  /\ runAsync (after this (Methods.catch handler)) h =
       (if ToBoolean (error s)
        then let '(o', h2) := handler (error s) h1 in
             (ending (result s) (settle await o'), h2,
              t ++ [EvHandler (length (operations this)) (error s) (settle await o')])
        else (Return (result s), h1, t)).
Proof.
  intros Hseed Hp.
  pose proof (runAsync_end _ _ _ _ _ Hseed Hp) as Hplain.
  change (after this (Methods.pipe fn args))
    with (createNext this (operations this ++ [pipe_operation fn args])).
  change (after this (Methods.catch handler))
    with (createNext this (operations this ++ [catch_operation handler])).
  unfold runAsync. rewrite !exec_snoc_prefix, exec_prefixRun, Hp.
  unfold step, pipe_operation, catch_operation.
  destruct (ToBoolean (error s)) eqn:He.
  - split; [unfold finish; rewrite He; reflexivity|]. split.
    + unfold finish. rewrite He, app_nil_r. reflexivity.
    + destruct (handler (error s) h1) as [o' h2].
      rewrite finish_assignHandled, (ending_settled _ _ Hplain). reflexivity.
  - split; [unfold finish; rewrite He; simpl; rewrite (await_plain _ Hplain);
            reflexivity|]. split.
    + destruct (fn (result s) args h1) as [o' h2].
      rewrite (finish_assign _ _ He), (ending_settled _ _ Hplain). reflexivity.
    + unfold finish. rewrite He, app_nil_r. simpl.
      rewrite (await_plain _ Hplain). reflexivity.
Qed.

Lemma X18_example_async_handler :
  runAsync (after Examples.recoverThenDouble (Methods.pipe Examples.asyncSucc [])) [] =
    (Return (VNum 21), [],
     [EvSeed (Throw Examples.errE); EvHandler 0 Examples.errE (Return (VNum 10));
      EvTransform 1 (VNum 10) (Return (VNum 20))]
     ++ [EvTransform 2 (VNum 20) (Return (VNum 21))])
  /\ runAsync (after MoreExamples.failsThenPipes
                 (Methods.catch MoreExamples.rejectingHandler)) [] =
       (Throw Examples.errE2, [],
        [EvSeed (Throw Examples.errE)]
        ++ [EvHandler 1 Examples.errE (Throw Examples.errE2)]).
Proof.
  split.
  - assert (Hseed : seedNotDeferred Examples.recoverThenDouble).
    { left. split; [reflexivity|discriminate]. }
    exact (proj1 (proj2 (X18_pipe_and_catch_post_compose_runAsync
                           Examples.recoverThenDouble Examples.asyncSucc []
                           MoreExamples.rejectingHandler [] []
                           (mkState (VNum 20) VNull)
                           [EvSeed (Throw Examples.errE);
                            EvHandler 0 Examples.errE (Return (VNum 10));
                            EvTransform 1 (VNum 10) (Return (VNum 20))]
                           Hseed eq_refl))).
  - assert (Hseed : seedNotDeferred MoreExamples.failsThenPipes).
    { left. split; [reflexivity|discriminate]. }
    exact (proj2 (proj2 (X18_pipe_and_catch_post_compose_runAsync
                           MoreExamples.failsThenPipes Examples.asyncSucc []
                           MoreExamples.rejectingHandler [] []
                           (mkState VUndefined Examples.errE)
                           [EvSeed (Throw Examples.errE)]
                           Hseed eq_refl))).
Defined.

(** X19.  A concrete seed that is a rejected promise is out of reach of
    the handlers: with only [ErrorHandler] steps, [runAsync] rejects with
    the promise's failure and calls no handler, while [run] returns the
    promise itself. *)
Theorem X19_a_rejected_promise_seed_bypasses_the_handlers
    (e : value) (hs : list Operation) (h : heap) :
  Forall (fun op => isErrorHandler op = true) hs ->
  runAsync (mkGluify (VRejected e) hs false None) h = (Throw e, h, [])
  /\ run (mkGluify (VRejected e) hs false None) h = (Return (VRejected e), h, []).
Proof.
  intros Hhs. unfold runAsync, run, exec, start; simpl.
  rewrite !walk_skips_handlers by (try assumption; reflexivity).
  split; reflexivity.
Qed.

Lemma X19_example_uncaught_rejection :
  runAsync (mkGluify (VRejected Examples.errE)
              [catch_operation (fun _ => ret (VStr "fallback"))] false None) []
    = (Throw Examples.errE, [], [])
  /\ run (mkGluify (VRejected Examples.errE)
            [catch_operation (fun _ => ret (VStr "fallback"))] false None) []
     = (Return (VRejected Examples.errE), [], []).
Proof.
  apply (X19_a_rejected_promise_seed_bypasses_the_handlers Examples.errE
           [catch_operation (fun _ => ret (VStr "fallback"))] []).
  repeat constructor.
Defined.

(** ** Falsy failures *)

Lemma sameLocals_finish s s' : sameLocals s s' -> finish s = finish s'.
Proof.
  intros [Hr [He|[H1 H2]]]; unfold finish.
  - rewrite He, Hr. reflexivity.
  - rewrite H1, H2, Hr. reflexivity.
Qed.

Lemma step_sameLocals aw i op s s' h :
  sameLocals s s' ->
  exists s1 s1' h1 t1,
    step aw i op s h = (s1, h1, t1) /\ step aw i op s' h = (s1', h1, t1)
    /\ sameLocals s1 s1'.
Proof.
  intros Hs. pose proof Hs as [Hr He]. unfold step.
  assert (Hb : ToBoolean (error s') = ToBoolean (error s)).
  { destruct He as [->|[-> ->]]; reflexivity. }
  rewrite Hb, <- Hr.
  destruct (ToBoolean (error s)) eqn:Htruthy; destruct op as [f|hd].
  - eexists _, _, _, _. split; [reflexivity|]. split; [reflexivity|exact Hs].
  - destruct He as [He|[H1 _]]; [|congruence]. rewrite <- He.
    destruct (hd (error s) h) as [o h1].
    eexists _, _, _, _. split; [reflexivity|]. split; [reflexivity|].
    destruct (settle aw o); split; simpl; auto.
  - destruct (f (result s) h) as [o h1].
    eexists _, _, _, _. split; [reflexivity|]. split; [reflexivity|].
    destruct (settle aw o); split; simpl; auto.
  - eexists _, _, _, _. split; [reflexivity|]. split; [reflexivity|exact Hs].
Qed.

Lemma walk_sameLocals aw ops : forall i s s' h,
  sameLocals s s' ->
  exists s1 s1' h1 t1,
    walk aw i ops s h = (s1, h1, t1) /\ walk aw i ops s' h = (s1', h1, t1)
    /\ sameLocals s1 s1'.
Proof.
  induction ops as [|op ops IH]; intros i s s' h Hs; simpl.
  - eexists _, _, _, _. repeat split; apply Hs.
  - destruct (step_sameLocals aw i op s s' h Hs) as [s1 [s1' [h1 [t1 [-> [-> H1]]]]]].
    destruct (IH (S i) s1 s1' h1 H1) as [s2 [s2' [h2 [t2 [-> [-> H2]]]]]].
    eexists _, _, _, _. repeat split; apply H2.
Qed.

(** X20.  A falsy failure of the producer is not a failure for [run]: when
    the producer throws [null], [undefined], [0], [false] or the empty
    string, [run] goes on as the pipeline seeded with the concrete value
    [undefined] does in the heap the producer leaves: same outcome, same
    heap, same calls after the producer's. *)
Theorem X20_a_falsy_failure_of_the_producer_is_swallowed
    (this : Gluify) (init : M value) (e : value) (h h0 : heap) :
  isLazy this = true ->
  lazyInitializer this = Some init ->
  init h = (Throw e, h0) ->
  ToBoolean e = false ->
  exists o h' t,
    run (mkGluify VUndefined (operations this) false None) h0 = (o, h', t)
    /\ run this h = (o, h', EvSeed (Throw e) :: t).
Proof.
  intros Hl Hi Hs He. unfold run, exec, start; simpl. rewrite Hl, Hi, Hs. simpl.
  assert (Hsame : sameLocals (mkState VUndefined VNull) (mkState VUndefined e)).
  { split; [reflexivity|]. right. split; [reflexivity|exact He]. }
  destruct (walk_sameLocals noAwait (operations this) 0 _ _ h0 Hsame)
    as [s1 [s1' [h1 [t1 [-> [-> H1]]]]]].
  rewrite (sameLocals_finish _ _ H1). eexists _, _, _. split; reflexivity.
Qed.

Lemma X20_example_throw_undefined :
  exists o h' t,
    run (mkGluify VUndefined (operations MoreExamples.throwsUndefinedThenTests)
           false None) [] = (o, h', t)
    /\ run MoreExamples.throwsUndefinedThenTests [] = (o, h', EvSeed (Throw VUndefined) :: t).
Proof.
  exact (X20_a_falsy_failure_of_the_producer_is_swallowed
           MoreExamples.throwsUndefinedThenTests (Examples.throwing VUndefined [])
           VUndefined [] [] eq_refl eq_refl eq_refl eq_refl).
Defined.
